(** * Osito: the conversational turn pipeline of [osito.py]

    A shallow embedding of the text sanitizer ([strip_emojis] and the
    clean-up block of [generate_response]), of the language-gated
    [transcribe], of [speak] and of the body of [main_loop], together with
    the properties of the turn pipeline.

    Python strings are sequences of Unicode code points: a [pystr] is a list
    of code points, each a [Z]. *)

From Stdlib Require Import ZArith List Bool Lia String Ascii QArith.
From Stdlib Require Import Qround.
Import ListNotations.

Local Open Scope Z_scope.

(* ================================================================= *)
(** ** Python strings *)

Definition pystr := list Z.

(** An ASCII literal of the source, as its code points. *)
Fixpoint s2u (s : string) : pystr :=
  match s with
  | EmptyString => []
  | String a r => Z.of_N (N_of_ascii a) :: s2u r
  end.

Fixpoint str_eqb (a b : pystr) : bool :=
  match a, b with
  | [], [] => true
  | x :: a', y :: b' => (x =? y) && str_eqb a' b'
  | _, _ => false
  end.

Definition is_empty (s : pystr) : bool :=
  match s with [] => true | _ :: _ => false end.

(** [Py_UNICODE_ISSPACE]: the code points that [str.strip()] removes and
    that [\s] matches in a [str] pattern. *)
Definition isspace (c : Z) : bool :=
  ((9 <=? c) && (c <=? 13)) || ((28 <=? c) && (c <=? 32))
  || (c =? 133) || (c =? 160) || (c =? 5760)
  || ((8192 <=? c) && (c <=? 8202))
  || (c =? 8232) || (c =? 8233) || (c =? 8239) || (c =? 8287)
  || (c =? 12288).

(** [s.lstrip()] *)
Fixpoint lstrip (s : pystr) : pystr :=
  match s with
  | [] => []
  | c :: s' => if isspace c then lstrip s' else s
  end.

(** [s.rstrip()]: a character is dropped when it is whitespace and nothing
    but whitespace follows it. *)
Fixpoint rstrip (s : pystr) : pystr :=
  match s with
  | [] => []
  | c :: s' =>
      let r := rstrip s' in
      if isspace c && is_empty r then [] else c :: r
  end.

(** [s.strip()] *)
Definition strip (s : pystr) : pystr := rstrip (lstrip s).

(** [s.startswith(prefix)] *)
Fixpoint startswith (prefix s : pystr) : bool :=
  match prefix, s with
  | [], _ => true
  | _ :: _, [] => false
  | p :: prefix', c :: s' => (p =? c) && startswith prefix' s'
  end.

(** [needle in hay] *)
Fixpoint contains (needle hay : pystr) : bool :=
  startswith needle hay
  || match hay with
     | [] => false
     | _ :: hay' => contains needle hay'
     end.

(** [s.replace(old, new)] for a non-empty [old]: occurrences are found left
    to right and do not overlap. [skip] counts the characters of the
    occurrence just replaced that are still to be passed over. *)
Fixpoint replace_from (old new : pystr) (skip : nat) (s : pystr) : pystr :=
  match s with
  | [] => []
  | c :: s' =>
      match skip with
      | S k => replace_from old new k s'
      | O =>
          if startswith old s
          then new ++ replace_from old new (Nat.pred (List.length old)) s'
          else c :: replace_from old new O s'
      end
  end.

Definition replace (old new s : pystr) : pystr := replace_from old new O s.

(** [re.sub("[cls]+", repl, s)]: every maximal run of characters of the class
    is replaced by [repl]. [inrun] tells that the previous character
    belonged to the class. *)
Fixpoint sub_runs (cls : Z -> bool) (repl : pystr) (inrun : bool) (s : pystr)
  : pystr :=
  match s with
  | [] => []
  | c :: s' =>
      if cls c
      then (if inrun then sub_runs cls repl true s'
            else repl ++ sub_runs cls repl true s')
      else c :: sub_runs cls repl false s'
  end.

Definition re_sub_class (cls : Z -> bool) (repl s : pystr) : pystr :=
  sub_runs cls repl false s.

(* ================================================================= *)
(** ** [strip_emojis] *)

Definition in_range (lo hi c : Z) : bool := (lo <=? c) && (c <=? hi).

(** The ten ranges of [emoji_pattern], in the order of the source. *)
Definition emoji_ranges : list (Z * Z) :=
  [ (0x1F600, 0x1F64F)    (* emoticons *)
  ; (0x1F300, 0x1F5FF)    (* symbols & pictographs *)
  ; (0x1F680, 0x1F6FF)    (* transport & map *)
  ; (0x1F1E0, 0x1F1FF)    (* flags *)
  ; (0x2702, 0x27B0)      (* dingbats *)
  ; (0x24C2, 0x1F251)     (* enclosed characters *)
  ; (0x1F900, 0x1F9FF)    (* supplemental symbols *)
  ; (0x1FA00, 0x1FA6F)    (* chess symbols *)
  ; (0x1FA70, 0x1FAFF)    (* symbols extended *)
  ; (0x2600, 0x26FF)      (* misc symbols *)
  ].

Definition is_emoji (c : Z) : bool :=
  existsb (fun r => in_range (fst r) (snd r) c) emoji_ranges.

Definition strip_emojis (text : pystr) : pystr :=
  strip (re_sub_class is_emoji [] text).

(* ================================================================= *)
(** ** The clean-up block of [generate_response] *)

Definition asterisk : Z := 42.

Definition label_prefixes : list pystr :=
  [ s2u "Osito:"; s2u "osito:"; s2u "**" ].

(** One pass of the [for prefix in ...] loop. *)
Definition strip_prefix (text prefix : pystr) : pystr :=
  if startswith prefix text
  then strip (skipn (List.length prefix) text)
  else text.

Definition default_reply : pystr := s2u "Hola! Como estas?".

(** The text before the empty check. *)
Definition clean (raw : pystr) : pystr :=
  let t := strip raw in
  let t := fold_left strip_prefix label_prefixes t in
  let t := replace (s2u "*") [] (replace (s2u "**") [] t) in
  let t := strip_emojis t in
  strip (re_sub_class isspace (s2u " ") t).

Definition sanitize (raw : pystr) : pystr :=
  let t := clean raw in
  if is_empty t then default_reply else t.

Definition ana_raw_reply : pystr :=
  s2u "**Osito:** Hola Ana! " ++ [0x1F60A] ++ s2u " Te gusta el azul?".

(* ================================================================= *)
(** ** Exceptions, the world and the monad of effects *)

(** The exception classes the pipeline meets; the comment gives the base
    class of those that have one among them. *)
Inductive exn : Type :=
| RuntimeError
| NotImplementedError      (* RuntimeError *)
| ValueError
| UnicodeEncodeError       (* ValueError *)
| UnicodeDecodeError       (* ValueError *)
| EOFError
| KeyError
| IndexError
| TypeError
| AttributeError
| AssertionError
| MemoryError
| OSError
| FileNotFoundError        (* OSError *)
| SubprocessError
| TimeoutExpired           (* SubprocessError *)
| CalledProcessError       (* SubprocessError *).

Definition exn_eqb (a b : exn) : bool :=
  match a, b with
  | RuntimeError, RuntimeError | NotImplementedError, NotImplementedError
  | ValueError, ValueError | UnicodeEncodeError, UnicodeEncodeError
  | UnicodeDecodeError, UnicodeDecodeError | EOFError, EOFError
  | KeyError, KeyError | IndexError, IndexError | TypeError, TypeError
  | AttributeError, AttributeError | AssertionError, AssertionError
  | MemoryError, MemoryError | OSError, OSError
  | FileNotFoundError, FileNotFoundError
  | SubprocessError, SubprocessError | TimeoutExpired, TimeoutExpired
  | CalledProcessError, CalledProcessError => true
  | _, _ => false
  end.

Definition base (e : exn) : option exn :=
  match e with
  | NotImplementedError => Some RuntimeError
  | UnicodeEncodeError | UnicodeDecodeError => Some ValueError
  | FileNotFoundError => Some OSError
  | TimeoutExpired | CalledProcessError => Some SubprocessError
  | _ => None
  end.

(** [isinstance(e, cls)] *)
Definition isinstance (e cls : exn) : bool :=
  exn_eqb e cls
  || match base e with
     | Some b => exn_eqb b cls
     | None => false
     end.

Inductive result (A : Type) : Type :=
| Ok (a : A)
| Raise (e : exn).
Arguments Ok {A} a.
Arguments Raise {A} e.

(** A message of the chat: the dict [{"role": ..., "content": ...}]. *)
Record message : Type := Msg { role : pystr; content : pystr }.

Definition path := nat.

(** What the program does to the outside, in order. *)
Inductive event : Type :=
| EvPrint (line : pystr)
| EvPrintDetected (language : pystr) (confidence : Q)
| EvPrintError (context : pystr) (e : exn)
| EvPrintLatency
| EvDetectLanguage
| EvModelTranscribe (language initial_prompt : pystr)
| EvChat (messages : list message)
| EvPiper (text : pystr) (output_file : path)
| EvPlay (file : path).

(** The temporary files that exist and the events so far (latest last). *)
Record world : Type := World { files : list path; log : list event }.

Definition M (A : Type) : Type := world -> world * result A.

Definition ret {A} (a : A) : M A := fun w => (w, Ok a).

Definition raise {A} (e : exn) : M A := fun w => (w, Raise e).

Definition bind {A B} (m : M A) (k : A -> M B) : M B :=
  fun w =>
    match m w with
    | (w', Ok a) => k a w'
    | (w', Raise e) => (w', Raise e)
    end.

Notation "x <- m ;; k" := (bind m (fun x => k))
  (at level 61, m at next level, right associativity).
Notation "m ;;; k" := (bind m (fun _ => k))
  (at level 61, right associativity).

Definition lift {A} (r : result A) : M A := fun w => (w, r).

Definition emit (ev : event) : M unit :=
  fun w => (World (files w) (log w ++ [ev]), Ok tt).

(** [try: m  except ...: h e]; the handler re-raises what it does not
    catch. *)
Definition try_except {A} (m : M A) (h : exn -> M A) : M A :=
  fun w =>
    match m w with
    | (w', Raise e) => h e w'
    | r => r
    end.

(** A computation that only adds to the log: the events [evs], all of the
    kind [P], and the result are the same from every world. *)
Definition logs_only {A} (P : event -> bool) (m : M A) : Prop :=
  exists evs r,
    forallb P evs = true
    /\ forall w, m w = (World (files w) (log w ++ evs), r).

Definition is_stt_event (ev : event) : bool :=
  match ev with
  | EvDetectLanguage | EvModelTranscribe _ _
  | EvPrintDetected _ _ | EvPrintError _ _ => true
  | _ => false
  end.

Definition is_tts_event (ev : event) : bool :=
  match ev with
  | EvPiper _ _ | EvPlay _ | EvPrint _ | EvPrintError _ _ => true
  | _ => false
  end.

Definition is_chat_event (ev : event) : bool :=
  match ev with
  | EvChat _ => true
  | _ => false
  end.

(** The events between the world [w] and a later world [w']. *)
Definition emitted (w w' : world) : list event :=
  skipn (List.length (log w)) (log w').

(* ================================================================= *)
(** ** The pipeline *)

Definition MAX_HISTORY_TURNS : nat := 4.

(** [subprocess.run]: the child exits with a return code, runs past the
    timeout, or cannot be started. *)
Inductive proc : Type :=
| Exited (returncode : Z)
| TimedOut
| NotStarted.

Section Pipeline.

(** The sample buffer and the spectrogram are opaque to the pipeline. *)
Context {audio mel : Type}.

(** [str.lower()]: the Unicode case mapping is not part of the source. *)
Variable lower : pystr -> pystr.

Variable SYSTEM_PROMPT : pystr.

(** The transcription backend. [model_transcribe] gives [result["text"]];
    a result without that key is a [KeyError]. *)
Record whisper : Type := Whisper {
  pad_or_trim : audio -> result audio;
  log_mel_spectrogram : audio -> result mel;
  detect_language : mel -> result (list (pystr * Q));
  model_transcribe : audio -> pystr -> pystr -> result pystr
}.

(** The chat backend, the synthesis tool and the player. [mkstemp] names
    the file that is created, or fails with an [OSError]. [piper_stderr]
    is [process.stderr.decode()]: the text that the synthesis tool wrote on
    its standard error, or nothing when these bytes are not valid UTF-8 and
    the decoding fails with a [UnicodeDecodeError]. *)
Record backends : Type := Backends {
  whisper_model : whisper;
  ollama_chat : list message -> result pystr;
  mkstemp : list path -> option path;
  piper : pystr -> path -> proc;
  piper_stderr : pystr -> path -> option pystr;
  afplay : path -> proc
}.

(* --------------------------------------------------------------- *)
(** *** [transcribe] *)

(** [max(probs, key=probs.get)]: the first key of the largest
    probability; [ValueError] on an empty dict. *)
Fixpoint max_from (best : pystr * Q) (rest : list (pystr * Q))
  : pystr * Q :=
  match rest with
  | [] => best
  | x :: rest' =>
      if negb (Qle_bool (snd x) (snd best))
      then max_from x rest'
      else max_from best rest'
  end.

Definition py_max (probs : list (pystr * Q)) : result (pystr * Q) :=
  match probs with
  | [] => Raise ValueError
  | x :: rest => Ok (max_from x rest)
  end.

Definition allowed_language (lang : pystr) : bool :=
  str_eqb lang (s2u "en") || str_eqb lang (s2u "es").

Definition initial_prompt (lang : pystr) : pystr :=
  if str_eqb lang (s2u "es")
  then s2u "Hola, como estas?"
  else s2u "Hello, how are you?".

Definition hallucinations : list pystr :=
  [ s2u "Gracias por ver"; s2u "Suscribete"; s2u "subtitulos"
  ; s2u "MBC"; s2u "Thank you for watching"; s2u "Subscribe" ].

(** The [for h in hallucinations] loop: [true] when it returns early. *)
Fixpoint hallucinated (hs : list pystr) (text : pystr) : bool :=
  match hs with
  | [] => false
  | h :: hs' =>
      if contains (lower h) (lower text)
         && (List.length text <? 40)%nat
      then true
      else hallucinated hs' text
  end.

(** Language detection: the first lines of the [try] block. *)
Definition detect_top_language (wm : whisper) (audio_data : audio)
  : M (pystr * Q) :=
  audio_padded <- lift (pad_or_trim wm audio_data) ;;
  m <- lift (log_mel_spectrogram wm audio_padded) ;;
  emit EvDetectLanguage ;;;
  probs <- lift (detect_language wm m) ;;
  lift (py_max probs).

Definition transcribe_try (wm : whisper) (audio_data : audio)
  : M (option pystr * pystr) :=
  top <- detect_top_language wm audio_data ;;
  let detected_lang := fst top in
  let confidence := snd top in
  if negb (allowed_language detected_lang)
  then
    emit (EvPrintDetected detected_lang confidence) ;;;
    ret (None, s2u "unsupported_language")
  else
    emit (EvModelTranscribe detected_lang (initial_prompt detected_lang)) ;;;
    raw <- lift (model_transcribe wm audio_data detected_lang
                   (initial_prompt detected_lang)) ;;
    let text := strip raw in
    if hallucinated hallucinations text
    then ret (None, s2u "no_speech")
    else if is_empty text || (List.length text <? 2)%nat
    then ret (None, s2u "no_speech")
    else ret (Some text, detected_lang).

(** [except (RuntimeError, ValueError, KeyError)] *)
Definition transcribe_catches (e : exn) : bool :=
  isinstance e RuntimeError || isinstance e ValueError
  || isinstance e KeyError.

Definition transcribe (wm : whisper) (audio_data : audio)
  : M (option pystr * pystr) :=
  try_except (transcribe_try wm audio_data)
    (fun e =>
       if transcribe_catches e
       then
         emit (EvPrintError (s2u "Error en transcripcion") e) ;;;
         ret (None, s2u "error")
       else raise e).

(* --------------------------------------------------------------- *)
(** *** [generate_response] *)

Definition generate_response (b : backends) (user_text : pystr)
    (conversation_history : list message) : M pystr :=
  let messages :=
    [Msg (s2u "system") SYSTEM_PROMPT]
    ++ conversation_history
    ++ [Msg (s2u "user") user_text] in
  emit (EvChat messages) ;;;
  match ollama_chat b messages with
  | Ok content_ => ret (sanitize content_)
  | Raise e =>
      emit (EvPrintError (s2u "Error generando respuesta") e) ;;;
      ret (s2u "Hola! Que quieres decirme?")
  end.

(* --------------------------------------------------------------- *)
(** *** [speak] *)

(** [tempfile.NamedTemporaryFile(suffix=".wav", delete=False)]: the file
    is created and stays after the [with] block. *)
Definition named_temporary_file (b : backends) : M path :=
  fun w =>
    match mkstemp b (files w) with
    | Some p => (World (p :: files w) (log w), Ok p)
    | None => (w, Raise OSError)
    end.

(** [os.unlink(p)] *)
Definition unlink (p : path) : M unit :=
  fun w =>
    if existsb (Nat.eqb p) (files w)
    then (World (filter (fun q => negb (Nat.eqb p q)) (files w)) (log w),
          Ok tt)
    else (w, Raise FileNotFoundError).

(** [subprocess.run(..., timeout=30, check=check)] *)
Definition subprocess_run (p : proc) (check : bool) : M Z :=
  match p with
  | Exited rc =>
      if check && negb (rc =? 0) then raise CalledProcessError else ret rc
  | TimedOut => raise TimeoutExpired
  | NotStarted => raise FileNotFoundError
  end.

(** [text.encode("utf-8")] fails on a surrogate code point. *)
Definition encodable (text : pystr) : bool :=
  negb (existsb (in_range 0xD800 0xDFFF) text).

(** The [try] block of [speak]. On a return code other than 0 the message
    of the [RuntimeError] is built from [process.stderr.decode()], which
    fails first when the standard error is not valid UTF-8. *)
Definition speak_try (b : backends) (text : pystr) : M unit :=
  tmp_path <- named_temporary_file b ;;
  (if encodable text then ret tt else raise UnicodeEncodeError) ;;;
  emit (EvPiper text tmp_path) ;;;
  returncode <- subprocess_run (piper b text tmp_path) false ;;
  (if negb (returncode =? 0)
   then
     match piper_stderr b text tmp_path with
     | Some _ => raise RuntimeError
     | None => raise UnicodeDecodeError
     end
   else ret tt) ;;;
  emit (EvPlay tmp_path) ;;;
  subprocess_run (afplay b tmp_path) true ;;;
  unlink tmp_path.

Definition audio_line (text : pystr) : pystr := s2u "  [Audio]: " ++ text.

Definition speak (b : backends) (text : pystr) : M unit :=
  try_except (speak_try b text)
    (fun e =>
       if isinstance e TimeoutExpired
       then emit (EvPrint (audio_line text))
       else if isinstance e RuntimeError || isinstance e OSError
               || isinstance e SubprocessError
       then
         emit (EvPrintError (s2u "Error TTS") e) ;;;
         emit (EvPrint (audio_line text))
       else raise e).

(* --------------------------------------------------------------- *)
(** *** [main_loop] *)

(** [conversation_history[-n:]] *)
Definition last_n {A} (n : nat) (l : list A) : list A :=
  skipn (List.length l - n)%nat l.

(** The end of the loop body: the exchange is appended and the history is
    cut to the last [MAX_HISTORY_TURNS] turns. *)
Definition push_turn (conversation_history : list message)
    (text response : pystr) : list message :=
  let h :=
    (conversation_history ++ [Msg (s2u "user") text])
    ++ [Msg (s2u "assistant") response] in
  let max_messages := (MAX_HISTORY_TURNS * 2)%nat in
  if (max_messages <? List.length h)%nat then last_n max_messages h else h.

Inductive flow : Type :=
| Break
| Continue (conversation_history : list message).

Definition unsupported_msg : pystr :=
  s2u "Hmm, solo entiendo espanol e ingles. Try again!".
Definition not_heard_msg : pystr :=
  s2u "No te escuche bien. Can you say that again?".
Definition bye : pystr := s2u "Adios amigo! Hasta pronto!".
Definition greeting : pystr :=
  s2u "Hola! Soy Osito, tu amigo! Como te llamas?".

Definition osito_line (text : pystr) : pystr := s2u "Osito: " ++ text.

(** One pass of the [while True] body: [typed] is what [input()] read, or
    the exception it raised ([EOFError] when the standard input is closed),
    and [recorded] what [record_audio()] gave. *)
Definition loop_body (b : backends) (conversation_history : list message)
    (typed : result pystr) (recorded : result audio) : M flow :=
  line <- lift typed ;;
  let user_input := lower (strip line) in
  if str_eqb user_input (s2u "salir")
  then
    emit (EvPrint (osito_line bye)) ;;;
    speak b bye ;;;
    ret Break
  else
    audio_data <- lift recorded ;;
    emit (EvPrint (s2u "Procesando...")) ;;;
    r <- transcribe (whisper_model b) audio_data ;;
    let text := fst r in
    let status := snd r in
    if str_eqb status (s2u "unsupported_language")
    then
      emit (EvPrint (osito_line unsupported_msg)) ;;;
      speak b unsupported_msg ;;;
      ret (Continue conversation_history)
    else
      match text with
      | None =>
          emit (EvPrint (osito_line not_heard_msg)) ;;;
          speak b not_heard_msg ;;;
          ret (Continue conversation_history)
      | Some text =>
          emit (EvPrint (s2u "Tu: " ++ text)) ;;;
          response <- generate_response b text conversation_history ;;
          emit (EvPrint (osito_line response)) ;;;
          speak b response ;;;
          emit EvPrintLatency ;;;
          ret (Continue (push_turn conversation_history text response))
      end.

(** The loop over the turns that the user gives, from a history. *)
Fixpoint run_turns (b : backends) (conversation_history : list message)
    (turns : list (result pystr * result audio)) : M (list message) :=
  match turns with
  | [] => ret conversation_history
  | (typed, recorded) :: turns' =>
      f <- loop_body b conversation_history typed recorded ;;
      match f with
      | Break => ret conversation_history
      | Continue h => run_turns b h turns'
      end
  end.

Definition main_loop (b : backends)
    (turns : list (result pystr * result audio)) : M (list message) :=
  emit (EvPrint (osito_line greeting)) ;;;
  speak b greeting ;;;
  run_turns b [] turns.

(** The two messages of an exchange, and the history after a list of
    exchanges, each one pushed with [push_turn]. *)
Definition exchange_messages (x : pystr * pystr) : list message :=
  [Msg (s2u "user") (fst x); Msg (s2u "assistant") (snd x)].

Definition history_after (exchanges : list (pystr * pystr))
    (conversation_history : list message) : list message :=
  fold_left (fun h x => push_turn h (fst x) (snd x)) exchanges
    conversation_history.

(* --------------------------------------------------------------- *)
(** *** What the backend does on a recording *)

(** Detection succeeds on [audio_data] and its most probable language is
    [lang], of probability [conf]. *)
Definition detects (wm : whisper) (audio_data : audio)
    (lang : pystr) (conf : Q) : Prop :=
  exists padded m probs,
    pad_or_trim wm audio_data = Ok padded
    /\ log_mel_spectrogram wm padded = Ok m
    /\ detect_language wm m = Ok probs
    /\ py_max probs = Ok (lang, conf).

(** The exception [e] is raised while [audio_data] goes through
    detection and transcription, by the stage that the constructor
    names. *)
Inductive stage_raises (wm : whisper) (audio_data : audio) (e : exn)
  : Prop :=
| raises_pad :
    pad_or_trim wm audio_data = Raise e ->
    stage_raises wm audio_data e
| raises_mel padded :
    pad_or_trim wm audio_data = Ok padded ->
    log_mel_spectrogram wm padded = Raise e ->
    stage_raises wm audio_data e
| raises_detect padded m :
    pad_or_trim wm audio_data = Ok padded ->
    log_mel_spectrogram wm padded = Ok m ->
    detect_language wm m = Raise e ->
    stage_raises wm audio_data e
| raises_max padded m probs :
    pad_or_trim wm audio_data = Ok padded ->
    log_mel_spectrogram wm padded = Ok m ->
    detect_language wm m = Ok probs ->
    py_max probs = Raise e ->
    stage_raises wm audio_data e
| raises_transcribe lang conf :
    detects wm audio_data lang conf ->
    allowed_language lang = true ->
    model_transcribe wm audio_data lang (initial_prompt lang) = Raise e ->
    stage_raises wm audio_data e.

End Pipeline.

Arguments whisper : clear implicits.
Arguments backends : clear implicits.

(* ================================================================= *)
(** ** [record_audio] *)

Definition SAMPLE_RATE : Z := 16000.
Definition CHUNK_SIZE : Z := 1024.
Definition RECORD_SECONDS : Z := 6.

(** [int(SAMPLE_RATE / CHUNK_SIZE * RECORD_SECONDS)]: the quotient 15.625
    and the product 93.75 are exact in binary floating point, and [int]
    truncates. *)
Definition num_chunks : nat :=
  Z.to_nat
    (Qfloor (inject_Z SAMPLE_RATE / inject_Z CHUNK_SIZE
             * inject_Z RECORD_SECONDS)%Q).

(** The audio device: whether [pyaudio.PyAudio()] and [audio.open(...)]
    succeed, and the bytes that the read number [i] of the stream returns. *)
Record microphone : Type := Microphone {
  pyaudio_new : result unit;
  open_stream : result unit;
  stream_read : nat -> result (list Z)
}.

(** What [record_audio] holds of the device when it ends. *)
Record mic_state : Type := MicState {
  pyaudio_live : bool;
  stream_open : bool
}.

(** The [for _ in range(num_chunks)] loop, from read number [i]. *)
Fixpoint read_frames (mic : microphone) (i n : nat) (frames : list (list Z))
  : result (list (list Z)) :=
  match n with
  | O => Ok frames
  | S n' =>
      match stream_read mic i with
      | Ok data => read_frames mic (S i) n' (frames ++ [data])
      | Raise e => Raise e
      end
  end.

(** A 16-bit sample from its two bytes, low byte first. *)
Definition int16_of (lo hi : Z) : Z :=
  let u := lo + 256 * hi in
  if u <? 32768 then u else u - 65536.

(** [np.frombuffer(buffer, dtype=np.int16)]: a [ValueError] when the size
    of the buffer is no multiple of 2. *)
Fixpoint frombuffer_int16 (buffer : list Z) : result (list Z) :=
  match buffer with
  | [] => Ok []
  | [_] => Raise ValueError
  | lo :: hi :: rest =>
      match frombuffer_int16 rest with
      | Ok samples => Ok (int16_of lo hi :: samples)
      | Raise e => Raise e
      end
  end.

(** [audio_data.astype(np.float32) / 32768.0]: exact on 16-bit samples. *)
Definition to_float (sample : Z) : Q := (inject_Z sample / inject_Z 32768)%Q.

Definition listening_line : pystr := s2u "Escuchando... (6 segundos)".

(** [record_audio()]: the state of the device at the end, what was printed
    and the samples or the exception. *)
Definition record_audio (mic : microphone)
  : mic_state * list event * result (list Q) :=
  match pyaudio_new mic with
  | Raise e => (MicState false false, [], Raise e)
  | Ok _ =>
      match open_stream mic with
      | Raise e => (MicState true false, [], Raise e)
      | Ok _ =>
          match read_frames mic 0 num_chunks [] with
          | Raise e => (MicState true true, [EvPrint listening_line], Raise e)
          | Ok frames =>
              match frombuffer_int16 (List.concat frames) with
              | Raise e =>
                  (MicState false false, [EvPrint listening_line], Raise e)
              | Ok audio_data =>
                  (MicState false false, [EvPrint listening_line],
                   Ok (map to_float audio_data))
              end
          end
      end
  end.

(** A device whose every read gives the two bytes of one sample. *)
Definition mic_constant (lo hi : Z) : microphone :=
  Microphone (Ok tt) (Ok tt) (fun _ => Ok [lo; hi]).

(** A device that gives [good] chunks of 2048 zero bytes and then fails. *)
Definition mic_failing_after (good : nat) : microphone :=
  Microphone (Ok tt) (Ok tt)
    (fun i => if (i <? good)%nat then Ok (repeat 0 2048) else Raise OSError).

(* ================================================================= *)
(** ** Sample backends *)

(** [str.lower()] on ASCII text. *)
Definition ascii_lower (s : pystr) : pystr :=
  map (fun c => if in_range 65 90 c then c + 32 else c) s.

(** A model that hears [lang] and writes [text]; a recording is a unit. *)
Definition hears (lang text : pystr) : whisper unit unit :=
  Whisper (fun a => Ok a) (fun _ => Ok tt)
    (fun _ => Ok [(s2u "en", 1 # 10); (lang, 7 # 10); (s2u "es", 2 # 10)])
    (fun _ _ _ => Ok text).

(** A model whose encoder fails an assertion during detection. *)
Definition fails_assertion : whisper unit unit :=
  Whisper (fun a => Ok a) (fun _ => Ok tt)
    (fun _ => Raise AssertionError)
    (fun _ _ _ => Ok []).

(** A model that hears Spanish and fails while it decodes. *)
Definition fails_decoding : whisper unit unit :=
  Whisper (fun a => Ok a) (fun _ => Ok tt)
    (fun _ => Ok [(s2u "es", 9 # 10); (s2u "en", 1 # 10)])
    (fun _ _ _ => Raise RuntimeError).

Definition empty_world : world := World [] [].

(** Backends around the model [wm] whose synthesis tool and player end as
    given; the temporary file is number 7. *)
Definition backends_of (wm : whisper unit unit) (piper_end afplay_end : proc)
  : backends unit unit :=
  Backends wm
    (fun _ => Ok (s2u "Hola! Te gusta el azul?"))
    (fun _ => Some 7%nat)
    (fun _ _ => piper_end)
    (fun _ _ => Some (s2u "voice not found"))
    (fun _ => afplay_end).

Definition tts_ends (piper_end afplay_end : proc) : backends unit unit :=
  backends_of (hears (s2u "es") (s2u "Hola")) piper_end afplay_end.

(** Backends whose synthesis tool exits with code 1 and leaves on its
    standard error bytes that are not valid UTF-8. *)
Definition tts_garbled : backends unit unit :=
  Backends (hears (s2u "fr") (s2u "Bonjour"))
    (fun _ => Ok (s2u "Hola! Te gusta el azul?"))
    (fun _ => Some 7%nat)
    (fun _ _ => Exited 1)
    (fun _ _ => None)
    (fun _ => Exited 0).

(** A history of one exchange. *)
Definition ana_history : list message :=
  [Msg (s2u "user") (s2u "Hola, me llamo Ana");
   Msg (s2u "assistant") (s2u "Hola Ana! Te gusta el azul?")].

(* ================================================================= *)
(** ** Predicates of the specification *)

(** [no_lead s]: [s] does not start with whitespace. *)
Definition no_lead (s : pystr) : bool :=
  match s with
  | [] => true
  | c :: _ => negb (isspace c)
  end.

(** A string on which [strip] does nothing. *)
Definition trimmed (s : pystr) : Prop := strip s = s.

Definition not_asterisk (c : Z) : bool := negb (c =? asterisk).

(** [spaced prev s]: every whitespace character of [s] is one space that
    does not follow whitespace; [prev] tells that whitespace comes just
    before [s]. *)
Fixpoint spaced (prev : bool) (s : pystr) : bool :=
  match s with
  | [] => true
  | c :: s' =>
      if isspace c
      then (c =? 32) && negb prev && spaced true s'
      else spaced false s'
  end.

Definition not_emoji (c : Z) : bool := negb (is_emoji c).

(** The message that answers a rejection of status [status]. *)
Definition fallback_msg (status : pystr) : pystr :=
  if str_eqb status (s2u "unsupported_language")
  then unsupported_msg
  else not_heard_msg.

(** The world in which a rejected turn calls [speak]: after the notice,
    the events [stt] of the transcription and the fallback message. *)
Definition before_fallback (w : world) (stt : list event) (status : pystr)
  : world :=
  World (files w)
    (log w ++ [EvPrint (s2u "Procesando...")] ++ stt
     ++ [EvPrint (osito_line (fallback_msg status))]).

(** The range that the source labels "enclosed characters". *)
Definition enclosed (c : Z) : bool := in_range 0x24C2 0x1F251 c.

(** Blocks of the Unicode Standard (Blocks.txt) for the scripts of east
    Asia; they are not part of the source. *)
Definition hiragana (c : Z) : bool := in_range 0x3040 0x309F c.
Definition katakana (c : Z) : bool := in_range 0x30A0 0x30FF c.
Definition hangul_syllable (c : Z) : bool := in_range 0xAC00 0xD7AF c.
Definition hangul_jamo (c : Z) : bool := in_range 0x1100 0x11FF c.

(** The ideograph blocks of the Basic Multilingual Plane: Extension A, the
    unified ideographs and the compatibility ideographs. *)
Definition cjk_ideograph_bmp (c : Z) : bool :=
  in_range 0x3400 0x4DBF c || in_range 0x4E00 0x9FFF c
  || in_range 0xF900 0xFAFF c.

(** The ideograph blocks of planes 2 and 3: Extensions B to I and the
    compatibility supplement. *)
Definition cjk_ideograph_supplementary (c : Z) : bool :=
  in_range 0x20000 0x2A6DF c || in_range 0x2A700 0x2B73F c
  || in_range 0x2B740 0x2B81F c || in_range 0x2B820 0x2CEAF c
  || in_range 0x2CEB0 0x2EBEF c || in_range 0x2EBF0 0x2EE5F c
  || in_range 0x2F800 0x2FA1F c || in_range 0x30000 0x3134F c
  || in_range 0x31350 0x323AF c.

(** A character of the scripts that the claim names. *)
Definition cjk_script (c : Z) : bool :=
  cjk_ideograph_bmp c || cjk_ideograph_supplementary c
  || hiragana c || katakana c || hangul_syllable c || hangul_jamo c.

(** The part of those scripts that lies in the Basic Multilingual Plane
    above the Hangul Jamo block. *)
Definition cjk_script_bmp (c : Z) : bool :=
  cjk_ideograph_bmp c || hiragana c || katakana c || hangul_syllable c.

(** The text that [clean] builds: no asterisk, no character of the emoji
    ranges, nothing to strip, whitespace in normal form. *)
Record cleaned (s : pystr) : Prop := {
  cleaned_asterisk : forallb not_asterisk s = true;
  cleaned_emoji : forallb not_emoji s = true;
  cleaned_trimmed : trimmed s;
  cleaned_spaced : spaced false s = true
}.

(** The three ways through [transcribe]: a stage raises, the language is
    not allowed, or the model gives a transcript in an allowed language. *)
Inductive transcribe_case {audio mel : Type} (wm : whisper audio mel)
    (audio_data : audio) : Prop :=
| case_raises e :
    stage_raises wm audio_data e -> transcribe_case wm audio_data
| case_unsupported lang conf :
    detects wm audio_data lang conf ->
    allowed_language lang = false -> transcribe_case wm audio_data
| case_transcript lang conf raw :
    detects wm audio_data lang conf ->
    allowed_language lang = true ->
    model_transcribe wm audio_data lang (initial_prompt lang) = Ok raw ->
    transcribe_case wm audio_data.

(** [speak] meets the one exception that it does not handle, on a text that
    can be encoded: the synthesis tool exits with a code other than 0 and
    its standard error cannot be decoded. [fs] is the list of the files
    that exist. *)
Definition stderr_garbled {audio mel : Type} (b : backends audio mel)
    (text : pystr) (fs : list path) : bool :=
  match mkstemp b fs with
  | Some p =>
      match piper b text p with
      | Exited rc =>
          negb (rc =? 0)
          && match piper_stderr b text p with
             | Some _ => false
             | None => true
             end
      | _ => false
      end
  | None => false
  end.

(** What [speak] gives on a text that can be encoded. *)
Definition speak_outcome {audio mel : Type} (b : backends audio mel)
    (text : pystr) (fs : list path) : result unit :=
  if stderr_garbled b text fs then Raise UnicodeDecodeError else Ok tt.

(** The synthesis of [text] and the playing both end with return code 0. *)
Definition played {audio mel : Type} (b : backends audio mel) (text : pystr)
    (w : world) : Prop :=
  exists p, mkstemp b (files w) = Some p
            /\ piper b text p = Exited 0 /\ afplay b p = Exited 0.

(** The request that [generate_response] sends for [user_text], and the
    reply that it makes of the answer of the backend. *)
Definition chat_messages (SYSTEM_PROMPT : pystr)
    (conversation_history : list message) (user_text : pystr)
  : list message :=
  [Msg (s2u "system") SYSTEM_PROMPT]
  ++ conversation_history
  ++ [Msg (s2u "user") user_text].

Definition reply_of (answer : result pystr) : pystr :=
  match answer with
  | Ok content_ => sanitize content_
  | Raise _ => s2u "Hola! Que quieres decirme?"
  end.

(** A computation whose events, from every world, all satisfy [P]. *)
Definition emits {A} (P : event -> Prop) (m : M A) : Prop :=
  forall w, exists evs, log (fst (m w)) = log w ++ evs /\ Forall P evs.

(** A chat request is the system prompt, then the history after some list
    of exchanges, then one user message. *)
Definition chat_request_ok (SYSTEM_PROMPT : pystr) (ev : event) : Prop :=
  match ev with
  | EvChat messages =>
      exists exchanges user_text,
        messages
        = chat_messages SYSTEM_PROMPT (history_after exchanges []) user_text
  | _ => True
  end.

(* ================================================================= *)
(** * Properties *)

(** ** Strings *)

#[local] Arguments Z.eqb : simpl never.
#[local] Arguments Z.leb : simpl never.

Lemma str_eqb_eq (a b : pystr) : str_eqb a b = true <-> a = b.
Proof.
  revert b; induction a as [|x a IH]; intros [|y b]; simpl;
    try (split; [discriminate | discriminate]); try tauto.
  rewrite andb_true_iff, Z.eqb_eq, IH.
  split; [intros [-> ->]; reflexivity | intros H; inversion H; auto].
Qed.

Lemma str_eqb_refl (a : pystr) : str_eqb a a = true.
Proof. apply str_eqb_eq; reflexivity. Qed.

Lemma is_empty_true (s : pystr) : is_empty s = true <-> s = [].
Proof. destruct s; simpl; split; congruence. Qed.

Lemma no_lead_lstrip (s : pystr) : no_lead (lstrip s) = true.
Proof.
  induction s as [|c s IH]; simpl; auto.
  destruct (isspace c) eqn:E; auto. simpl. now rewrite E.
Qed.

Lemma lstrip_no_lead (s : pystr) : no_lead s = true -> lstrip s = s.
Proof.
  destruct s as [|c s]; simpl; auto.
  destruct (isspace c); simpl; [discriminate | reflexivity].
Qed.

Lemma no_lead_rstrip (s : pystr) : no_lead s = true -> no_lead (rstrip s) = true.
Proof.
  destruct s as [|c s]; simpl; auto.
  intros H. apply negb_true_iff in H. rewrite H. simpl. now rewrite H.
Qed.

Lemma rstrip_idem (s : pystr) : rstrip (rstrip s) = rstrip s.
Proof.
  induction s as [|c s IH]; simpl; auto.
  destruct (isspace c && is_empty (rstrip s)) eqn:E; simpl; auto.
  now rewrite IH, E.
Qed.

Lemma no_lead_strip (s : pystr) : no_lead (strip s) = true.
Proof. apply no_lead_rstrip, no_lead_lstrip. Qed.

Lemma strip_idem (s : pystr) : strip (strip s) = strip s.
Proof.
  unfold strip at 1. rewrite (lstrip_no_lead _ (no_lead_strip s)).
  unfold strip. apply rstrip_idem.
Qed.

Lemma trimmed_strip (s : pystr) : trimmed (strip s).
Proof. apply strip_idem. Qed.

(** *** What the operations keep: a property of all characters *)

Section Keep.
Variable P : Z -> bool.

Lemma keep_lstrip s : forallb P s = true -> forallb P (lstrip s) = true.
Proof.
  induction s as [|c s IH]; simpl; auto.
  intros H. apply andb_true_iff in H as [Hc Hs].
  destruct (isspace c); simpl; auto. now rewrite Hc, Hs.
Qed.

Lemma keep_rstrip s : forallb P s = true -> forallb P (rstrip s) = true.
Proof.
  induction s as [|c s IH]; simpl; auto.
  intros H. apply andb_true_iff in H as [Hc Hs].
  destruct (isspace c && is_empty (rstrip s)); simpl; auto.
  now rewrite Hc, IH.
Qed.

Lemma keep_strip s : forallb P s = true -> forallb P (strip s) = true.
Proof. intros H. apply keep_rstrip, keep_lstrip, H. Qed.

Lemma keep_skipn n s : forallb P s = true -> forallb P (skipn n s) = true.
Proof.
  revert s; induction n as [|n IH]; intros [|c s]; simpl; auto.
  intros H. apply andb_true_iff in H as [_ Hs]. auto.
Qed.

Lemma keep_strip_prefix s p :
  forallb P s = true -> forallb P (strip_prefix s p) = true.
Proof.
  intros H. unfold strip_prefix.
  destruct (startswith p s); auto using keep_strip, keep_skipn.
Qed.

Lemma keep_prefixes ps s :
  forallb P s = true -> forallb P (fold_left strip_prefix ps s) = true.
Proof.
  revert s; induction ps as [|p ps IH]; simpl; auto using keep_strip_prefix.
Qed.

Lemma keep_replace_from old new k s :
  forallb P new = true -> forallb P s = true ->
  forallb P (replace_from old new k s) = true.
Proof.
  intros Hn. revert k; induction s as [|c s IH]; intros k H; simpl; auto.
  simpl in H. apply andb_true_iff in H as [Hc Hs].
  destruct k as [|k]; auto.
  destruct (startswith old (c :: s)).
  - rewrite forallb_app, Hn. simpl. auto.
  - simpl. rewrite Hc. simpl. auto.
Qed.

Lemma keep_sub_runs cls repl b s :
  forallb P repl = true -> forallb P s = true ->
  forallb P (sub_runs cls repl b s) = true.
Proof.
  intros Hr. revert b; induction s as [|c s IH]; intros b H; simpl; auto.
  simpl in H. apply andb_true_iff in H as [Hc Hs].
  destruct (cls c).
  - destruct b; auto. rewrite forallb_app, Hr. simpl. auto.
  - simpl. rewrite Hc. simpl. auto.
Qed.
End Keep.

(** *** What the operations remove *)

Lemma sub_runs_removes cls b s :
  forallb (fun c => negb (cls c)) (sub_runs cls [] b s) = true.
Proof.
  revert b; induction s as [|c s IH]; intros b; simpl; auto.
  destruct (cls c) eqn:E.
  - destruct b; simpl; auto.
  - simpl. rewrite E. simpl. auto.
Qed.

Lemma sub_runs_none cls repl b s :
  forallb (fun c => negb (cls c)) s = true -> sub_runs cls repl b s = s.
Proof.
  revert b; induction s as [|c s IH]; intros b H; simpl; auto.
  simpl in H. apply andb_true_iff in H as [Hc Hs].
  apply negb_true_iff in Hc. rewrite Hc. f_equal. auto.
Qed.

Lemma replace_asterisk_removes s :
  forallb not_asterisk (replace (s2u "*") [] s) = true.
Proof.
  unfold replace. induction s as [|c s IH]; simpl; auto.
  rewrite andb_true_r. destruct (42 =? c) eqn:E; simpl; auto.
  unfold not_asterisk at 1, asterisk. rewrite Z.eqb_sym, E. simpl. exact IH.
Qed.

Lemma startswith_head_absent a old s :
  forallb (fun c => negb (c =? a)) s = true -> startswith (a :: old) s = false.
Proof.
  destruct s as [|c s]; simpl; auto.
  intros H. apply andb_true_iff in H as [Hc _].
  apply negb_true_iff in Hc. now rewrite Z.eqb_sym, Hc.
Qed.

Lemma replace_absent a old new s :
  forallb (fun c => negb (c =? a)) s = true -> replace (a :: old) new s = s.
Proof.
  unfold replace. induction s as [|c s IH]; intros H; auto.
  cbn [replace_from]. rewrite (startswith_head_absent a old _ H).
  simpl in H. apply andb_true_iff in H as [_ Hs]. f_equal. auto.
Qed.

(** *** Whitespace in normal form *)

Lemma spaced_weaken b s : spaced b s = true -> spaced false s = true.
Proof.
  destruct b; auto. destruct s as [|c s]; simpl; auto.
  destruct (isspace c); auto. rewrite andb_false_r. discriminate.
Qed.

Lemma spaced_sub_runs b s : spaced b (sub_runs isspace (s2u " ") b s) = true.
Proof.
  revert b; induction s as [|c s IH]; intros b; simpl; auto.
  destruct (isspace c) eqn:E.
  - destruct b; simpl; auto.
  - simpl. rewrite E. auto.
Qed.

Lemma sub_runs_spaced b s :
  spaced b s = true -> sub_runs isspace (s2u " ") b s = s.
Proof.
  revert b; induction s as [|c s IH]; intros b H; simpl in *; auto.
  destruct (isspace c) eqn:E.
  - apply andb_true_iff in H as [H Hs]. apply andb_true_iff in H as [Hc Hb].
    apply negb_true_iff in Hb. subst b. apply Z.eqb_eq in Hc. subst c.
    simpl. f_equal. auto.
  - f_equal. auto.
Qed.

Lemma spaced_lstrip b s : spaced b s = true -> spaced false (lstrip s) = true.
Proof.
  revert b; induction s as [|c s IH]; intros b H; simpl in *; auto.
  destruct (isspace c) eqn:E.
  - apply andb_true_iff in H as [_ Hs]. eauto.
  - simpl. now rewrite E.
Qed.

Lemma spaced_rstrip b s : spaced b s = true -> spaced b (rstrip s) = true.
Proof.
  revert b; induction s as [|c s IH]; intros b H; simpl in *; auto.
  destruct (isspace c) eqn:E; simpl.
  - apply andb_true_iff in H as [H Hs].
    destruct (is_empty (rstrip s)) eqn:Er; simpl; auto.
    rewrite E, H. simpl. auto.
  - rewrite E. auto.
Qed.

Lemma spaced_strip b s : spaced b s = true -> spaced false (strip s) = true.
Proof. intros H. eapply spaced_rstrip, spaced_lstrip, H. Qed.

(* ================================================================= *)
(** ** The sanitizer *)

Example sanitize_plain :
  sanitize (s2u "  Hola   Ana!  Te gusta * el azul? ")
  = s2u "Hola Ana! Te gusta el azul?".
Proof. vm_compute. reflexivity. Qed.

Example sanitize_only_emoji : sanitize [0x1F60A; 32; 0x1F43B] = default_reply.
Proof. vm_compute. reflexivity. Qed.

Lemma is_emoji_space : not_emoji 32 = true.
Proof. reflexivity. Qed.

Lemma clean_cleaned (raw : pystr) : cleaned (clean raw).
Proof.
  unfold clean, strip_emojis, re_sub_class. split.
  - apply keep_strip, keep_sub_runs; [reflexivity|].
    apply keep_strip, keep_sub_runs; [reflexivity|].
    apply replace_asterisk_removes.
  - apply keep_strip, keep_sub_runs; [reflexivity|].
    apply keep_strip. apply sub_runs_removes.
  - apply trimmed_strip.
  - eapply spaced_strip, spaced_sub_runs.
Qed.

Lemma default_reply_cleaned : cleaned default_reply.
Proof. split; reflexivity. Qed.

Lemma sanitize_cleaned (raw : pystr) : cleaned (sanitize raw).
Proof.
  unfold sanitize. destruct (is_empty (clean raw)).
  - apply default_reply_cleaned.
  - apply clean_cleaned.
Qed.

Lemma sanitize_nonempty (raw : pystr) : is_empty (sanitize raw) = false.
Proof.
  unfold sanitize. destruct (is_empty (clean raw)) eqn:E; auto.
Qed.

(** A cleaned text that carries no role label is left as it is. *)
Lemma clean_fixed (y : pystr) :
  cleaned y ->
  startswith (s2u "Osito:") y = false ->
  startswith (s2u "osito:") y = false ->
  clean y = y.
Proof.
  intros [Ha He Ht Hs] H1 H2. unfold clean.
  rewrite Ht. cbn [label_prefixes fold_left]. unfold strip_prefix.
  rewrite H1, H2.
  change (s2u "**") with (asterisk :: [asterisk]).
  change (s2u "*") with (asterisk :: []).
  rewrite (startswith_head_absent asterisk [asterisk] y Ha).
  rewrite (replace_absent asterisk [asterisk] [] y Ha).
  rewrite (replace_absent asterisk [] [] y Ha).
  unfold strip_emojis, re_sub_class.
  rewrite (sub_runs_none is_emoji [] false y He), Ht.
  rewrite (sub_runs_spaced false y Hs). exact Ht.
Qed.

(** C9 (the code departs from the claim): on the reply
    "**Osito:** Hola Ana! (smiling face) Te gusta el azul?" the loop over
    the prefixes tests "Osito:" before it removes the leading "**", so the
    role label stays: the result is "Osito: Hola Ana! Te gusta el azul?"
    and not "Hola Ana! Te gusta el azul?". *)
Theorem sanitize_ana_keeps_label :
  sanitize ana_raw_reply = s2u "Osito: Hola Ana! Te gusta el azul?"
  /\ sanitize ana_raw_reply <> s2u "Hola Ana! Te gusta el azul?".
Proof. split; [vm_compute; reflexivity | vm_compute; discriminate]. Qed.

(** C3 as stated fails: one pass removes one role label, the second pass
    removes the next one. *)
Lemma sanitize_not_idempotent :
  sanitize (s2u "Osito: Osito: Hola!") = s2u "Osito: Hola!"
  /\ sanitize (sanitize (s2u "Osito: Osito: Hola!")) = s2u "Hola!"
  /\ sanitize (sanitize (s2u "Osito: Osito: Hola!"))
     <> sanitize (s2u "Osito: Osito: Hola!").
Proof.
  split; [vm_compute; reflexivity | split].
  - vm_compute. reflexivity.
  - vm_compute. discriminate.
Qed.

(** C3 (amended): [sanitize (sanitize x) = sanitize x] for every input [x]
    whose sanitized text does not start with the role label "Osito:" or
    "osito:". *)
Theorem sanitize_idempotent_without_label (raw : pystr) :
  startswith (s2u "Osito:") (sanitize raw) = false ->
  startswith (s2u "osito:") (sanitize raw) = false ->
  sanitize (sanitize raw) = sanitize raw.
Proof.
  intros H1 H2. unfold sanitize at 1.
  rewrite (clean_fixed _ (sanitize_cleaned raw) H1 H2).
  now rewrite sanitize_nonempty.
Qed.

Lemma sanitize_idempotent_without_label_witness :
  startswith (s2u "Osito:") (sanitize (s2u "** Hola Ana! *Te gusta* el azul?"))
  = false
  /\ sanitize (sanitize (s2u "** Hola Ana! *Te gusta* el azul?"))
     = sanitize (s2u "** Hola Ana! *Te gusta* el azul?").
Proof.
  split.
  - vm_compute. reflexivity.
  - apply (sanitize_idempotent_without_label
             (s2u "** Hola Ana! *Te gusta* el azul?"));
      vm_compute; reflexivity.
Defined.

(** *** The condition of the amended C3 is the exact one *)

Lemma lstrip_length s : (List.length (lstrip s) <= List.length s)%nat.
Proof.
  induction s as [|c s IH]; simpl; auto.
  destruct (isspace c); simpl; lia.
Qed.

Lemma rstrip_length s : (List.length (rstrip s) <= List.length s)%nat.
Proof.
  induction s as [|c s IH]; simpl; auto.
  destruct (isspace c && is_empty (rstrip s)); simpl; lia.
Qed.

Lemma strip_length s : (List.length (strip s) <= List.length s)%nat.
Proof.
  unfold strip. pose proof (rstrip_length (lstrip s)).
  pose proof (lstrip_length s). lia.
Qed.

Lemma replace_from_length old k s :
  (List.length (replace_from old [] k s) <= List.length s)%nat.
Proof.
  revert k; induction s as [|c s IH]; intros k; simpl; auto.
  destruct k as [|k].
  - destruct (startswith old (c :: s)); simpl.
    + specialize (IH (Nat.pred (List.length old))). lia.
    + specialize (IH O). lia.
  - specialize (IH k). lia.
Qed.

Lemma sub_runs_length cls repl b s :
  (List.length repl <= 1)%nat ->
  (List.length (sub_runs cls repl b s) <= List.length s)%nat.
Proof.
  intros Hr. revert b; induction s as [|c s IH]; intros b; simpl; auto.
  destruct (cls c).
  - destruct b.
    + specialize (IH true). lia.
    + rewrite length_app. specialize (IH true). lia.
  - simpl. specialize (IH false). lia.
Qed.

Lemma startswith_length p s :
  startswith p s = true -> (List.length p <= List.length s)%nat.
Proof.
  revert s; induction p as [|x p IH]; intros [|c s]; simpl;
    try discriminate; try lia.
  intros H. apply andb_true_iff in H as [_ H]. apply IH in H. lia.
Qed.

Lemma strip_prefix_length t p :
  (List.length (strip_prefix t p) <= List.length t)%nat.
Proof.
  unfold strip_prefix. destruct (startswith p t); auto.
  pose proof (strip_length (skipn (List.length p) t)).
  rewrite length_skipn in *. lia.
Qed.

Lemma strip_prefix_shorter t p :
  startswith p t = true -> p <> [] ->
  (List.length (strip_prefix t p) < List.length t)%nat.
Proof.
  intros H Hp. unfold strip_prefix. rewrite H.
  pose proof (strip_length (skipn (List.length p) t)).
  pose proof (startswith_length p t H).
  rewrite length_skipn in *. destruct p; [congruence|]. simpl in *. lia.
Qed.

Lemma prefixes_length ps t :
  (List.length (fold_left strip_prefix ps t) <= List.length t)%nat.
Proof.
  revert t; induction ps as [|p ps IH]; intros t; simpl; auto.
  pose proof (IH (strip_prefix t p)). pose proof (strip_prefix_length t p).
  lia.
Qed.

(** What follows the loop over the prefixes does not lengthen the text. *)
Lemma clean_length_after_prefixes raw :
  (List.length (clean raw)
   <= List.length (fold_left strip_prefix label_prefixes (strip raw)))%nat.
Proof.
  unfold clean, strip_emojis, re_sub_class, replace.
  set (t := fold_left strip_prefix label_prefixes (strip raw)).
  pose proof (replace_from_length (s2u "**") O t) as H1.
  set (t1 := replace_from (s2u "**") [] 0 t) in *.
  pose proof (replace_from_length (s2u "*") O t1) as H2.
  set (t2 := replace_from (s2u "*") [] 0 t1) in *.
  pose proof (sub_runs_length is_emoji [] false t2 (Nat.le_0_l 1)) as H3.
  set (t3 := sub_runs is_emoji [] false t2) in *.
  pose proof (strip_length t3) as H4.
  pose proof (sub_runs_length isspace (s2u " ") false (strip t3) (le_n 1))
    as H5.
  pose proof (strip_length (sub_runs isspace (s2u " ") false (strip t3))).
  lia.
Qed.

Lemma startswith_osito_exclusive y :
  startswith (s2u "osito:") y = true -> startswith (s2u "Osito:") y = false.
Proof.
  destruct y as [|c y]; [discriminate|]. cbn [s2u startswith].
  intros H. apply andb_true_iff in H as [H _]. apply Z.eqb_eq in H.
  subst c. reflexivity.
Qed.

Lemma clean_shorter_with_label y :
  trimmed y ->
  startswith (s2u "Osito:") y = true \/ startswith (s2u "osito:") y = true ->
  (List.length (clean y) < List.length y)%nat.
Proof.
  intros Ht H. pose proof (clean_length_after_prefixes y) as L.
  rewrite Ht in L. cbn [label_prefixes fold_left] in L.
  assert (S : (List.length
                 (strip_prefix (strip_prefix y (s2u "Osito:")) (s2u "osito:"))
               < List.length y)%nat).
  { destruct H as [H|H].
    - pose proof (strip_prefix_shorter y (s2u "Osito:") H) as S1.
      pose proof (strip_prefix_length (strip_prefix y (s2u "Osito:"))
                    (s2u "osito:")).
      assert (s2u "Osito:" <> []) by discriminate. specialize (S1 H1). lia.
    - unfold strip_prefix at 2.
      rewrite (startswith_osito_exclusive y H).
      apply strip_prefix_shorter; [exact H | discriminate]. }
  pose proof (strip_prefix_length
                (strip_prefix (strip_prefix y (s2u "Osito:")) (s2u "osito:"))
                (s2u "**")).
  lia.
Qed.

(** When the sanitized text starts with a role label, a second pass
    changes it: the condition of the amended C3 cannot be dropped. *)
Lemma sanitize_label_not_fixed (raw : pystr) :
  startswith (s2u "Osito:") (sanitize raw) = true
  \/ startswith (s2u "osito:") (sanitize raw) = true ->
  sanitize (sanitize raw) <> sanitize raw.
Proof.
  intros H E.
  pose proof (clean_shorter_with_label (sanitize raw)
                (cleaned_trimmed _ (sanitize_cleaned raw)) H) as L.
  unfold sanitize at 1 in E.
  destruct (is_empty (clean (sanitize raw))) eqn:Ee.
  - rewrite <- E in H. destruct H as [H|H]; vm_compute in H; discriminate.
  - rewrite E in L. lia.
Qed.

(** C4: for every input the sanitized text is not empty, holds no asterisk
    and no code point of the emoji ranges, and it is the fixed default
    sentence exactly when the cleaned text is empty. *)
Theorem sanitize_output_invariant (raw : pystr) :
  sanitize raw <> []
  /\ ~ In asterisk (sanitize raw)
  /\ (forall c lo hi, In c (sanitize raw) -> In (lo, hi) emoji_ranges ->
        ~ (lo <= c <= hi))
  /\ (clean raw = [] -> sanitize raw = default_reply).
Proof.
  destruct (sanitize_cleaned raw) as [Ha He _ _].
  rewrite forallb_forall in Ha, He.
  repeat split.
  - intros E. pose proof (sanitize_nonempty raw) as N. rewrite E in N.
    discriminate.
  - intros Hin. apply Ha in Hin. unfold not_asterisk in Hin.
    rewrite Z.eqb_refl in Hin. discriminate.
  - intros c lo hi Hc Hr [Hlo Hhi]. apply He in Hc.
    unfold not_emoji, is_emoji in Hc. apply negb_true_iff in Hc.
    assert (X : existsb (fun r => in_range (fst r) (snd r) c) emoji_ranges
                = true).
    { apply existsb_exists. exists (lo, hi). split; auto.
      unfold in_range. simpl. apply andb_true_iff.
      split; apply Z.leb_le; assumption. }
    congruence.
  - intros E. unfold sanitize. now rewrite E.
Qed.

(** *** Replies in the scripts of east Asia *)

Lemma sub_runs_all cls b s :
  forallb cls s = true -> sub_runs cls [] b s = [].
Proof.
  revert b; induction s as [|c s IH]; intros b H; simpl in *; auto.
  apply andb_true_iff in H as [Hc Hs]. rewrite Hc.
  destruct b; simpl; auto.
Qed.

Lemma enclosed_is_emoji c : enclosed c = true -> is_emoji c = true.
Proof.
  intros H. unfold is_emoji. apply existsb_exists.
  exists (0x24C2, 0x1F251). split; [simpl; tauto | exact H].
Qed.

Lemma forallb_weaken (P Q : Z -> bool) s :
  (forall c, P c = true -> Q c = true) ->
  forallb P s = true -> forallb Q s = true.
Proof.
  intros I H. rewrite forallb_forall in *. auto.
Qed.

Lemma cjk_script_bmp_enclosed c : cjk_script_bmp c = true -> enclosed c = true.
Proof.
  unfold cjk_script_bmp, cjk_ideograph_bmp, hiragana, katakana,
    hangul_syllable, enclosed, in_range.
  rewrite !orb_true_iff, !andb_true_iff, !Z.leb_le. lia.
Qed.

Lemma clean_enclosed reply : forallb enclosed reply = true -> clean reply = [].
Proof.
  intros H. unfold clean, strip_emojis, re_sub_class.
  rewrite sub_runs_all; [reflexivity|].
  apply forallb_weaken with (P := enclosed); [apply enclosed_is_emoji|].
  apply keep_replace_from; [reflexivity|].
  apply keep_replace_from; [reflexivity|].
  apply keep_prefixes, keep_strip, H.
Qed.

(** C10 as stated fails: the ideographs of Extension B, such as U+20000,
    and the letters of the Hangul Jamo block, such as U+1100, lie outside
    the range U+24C2..U+1F251; a reply made of them is returned as it is. *)
Lemma cjk_reply_outside_enclosed :
  forallb cjk_script [0x20000] = true
  /\ enclosed 0x20000 = false
  /\ sanitize [0x20000] = [0x20000]
  /\ forallb cjk_script [0x1100; 0x1161] = true
  /\ enclosed 0x1100 = false
  /\ sanitize [0x1100; 0x1161] = [0x1100; 0x1161].
Proof. repeat split; vm_compute; reflexivity. Qed.

(** C10 (amended): [strip_emojis] deletes every code point of the range
    U+24C2..U+1F251; the range holds Hiragana, Katakana, the Hangul
    syllables and the ideograph blocks of the Basic Multilingual Plane; a
    reply whose code points all lie in the range is replaced by the fixed
    default sentence. *)
Theorem enclosed_range_erases_reply (text reply : pystr) :
  forallb enclosed reply = true ->
  forallb (fun c => negb (enclosed c)) (strip_emojis text) = true
  /\ (forall c, cjk_script_bmp c = true -> enclosed c = true)
  /\ sanitize reply = default_reply.
Proof.
  intros H. split; [|split].
  - unfold strip_emojis, re_sub_class. apply keep_strip.
    apply forallb_weaken with (P := not_emoji); [|apply sub_runs_removes].
    intros c Hc. unfold not_emoji in Hc. apply negb_true_iff in Hc.
    apply negb_true_iff. destruct (enclosed c) eqn:E; auto.
    apply enclosed_is_emoji in E. congruence.
  - apply cjk_script_bmp_enclosed.
  - unfold sanitize. now rewrite (clean_enclosed reply H).
Qed.

(** "konnichiha" in Hiragana, then an ideograph and a Hangul syllable. *)
Lemma enclosed_range_erases_reply_witness :
  forallb cjk_script_bmp [0x3053; 0x3093; 0x306B; 0x3061; 0x306F; 0x718A; 0xACF0]
  = true
  /\ sanitize [0x3053; 0x3093; 0x306B; 0x3061; 0x306F; 0x718A; 0xACF0]
     = default_reply.
Proof.
  split; [vm_compute; reflexivity|].
  apply (enclosed_range_erases_reply
           [0x5B50; 32; 0x1F60A]
           [0x3053; 0x3093; 0x306B; 0x3061; 0x306F; 0x718A; 0xACF0]).
  vm_compute. reflexivity.
Defined.

(* ================================================================= *)
(** ** The language gate and the transcript filters *)

Section Transcribe.
Context {audio mel : Type}.
Variable lower : pystr -> pystr.
Variable wm : whisper audio mel.
Variable audio_data : audio.

Lemma detect_top_language_detects lang conf w :
  detects wm audio_data lang conf ->
  detect_top_language wm audio_data w
  = (World (files w) (log w ++ [EvDetectLanguage]), Ok (lang, conf)).
Proof.
  intros (padded & m & probs & Hp & Hm & Hd & Hx).
  unfold detect_top_language, bind, lift, emit.
  rewrite Hp, Hm. simpl. rewrite Hd, Hx. reflexivity.
Qed.

(** The language that [max] picks has the largest probability. *)
Lemma max_from_top best rest x :
  In x (best :: rest) -> (snd x <= snd (max_from best rest))%Q.
Proof.
  revert best x; induction rest as [|y rest IH]; intros best x Hin; simpl.
  - destruct Hin as [<-|[]]. apply Qle_refl.
  - destruct (Qle_bool (snd y) (snd best)) eqn:E; simpl.
    + apply Qle_bool_iff in E.
      destruct Hin as [<-|[<-|Hin]].
      * apply IH. now left.
      * eapply Qle_trans; [exact E|]. apply IH. now left.
      * apply IH. now right.
    + assert (L : (snd best <= snd y)%Q).
      { destruct (Qlt_le_dec (snd best) (snd y)) as [L|L].
        - now apply Qlt_le_weak.
        - apply Qle_bool_iff in L. congruence. }
      destruct Hin as [<-|[<-|Hin]].
      * eapply Qle_trans; [exact L|]. apply IH. now left.
      * apply IH. now left.
      * apply IH. now right.
Qed.

Lemma py_max_top probs lang conf x :
  py_max probs = Ok (lang, conf) -> In x probs ->
  In (lang, conf) probs /\ (snd x <= conf)%Q.
Proof.
  destruct probs as [|b rest]; [discriminate|]. simpl.
  intros H Hin. inversion H as [E]. split.
  - clear. revert b; induction rest as [|y rest IH]; intros b; simpl.
    + now left.
    + destruct (negb (Qle_bool (snd y) (snd b))).
      * right. apply IH.
      * destruct (IH b) as [<-|I]; [now left | now right; right].
  - change conf with (snd (lang, conf)). rewrite <- E.
    now apply max_from_top.
Qed.

Lemma emitted_app w fs evs : emitted w (World fs (log w ++ evs)) = evs.
Proof.
  unfold emitted. cbn [log]. induction (log w); simpl; auto.
Qed.

(** C1: when the most probable language that detection reports is neither
    "en" nor "es", [transcribe] returns [(None, "unsupported_language")];
    it has asked for the detection and printed the language, and it has
    not called the transcription of the model. *)
Theorem transcribe_rejects_unsupported lang conf w :
  detects wm audio_data lang conf ->
  allowed_language lang = false ->
  transcribe lower wm audio_data w
  = (World (files w)
       (log w ++ [EvDetectLanguage; EvPrintDetected lang conf]),
     Ok (None, s2u "unsupported_language"))
  /\ forall l p,
       ~ In (EvModelTranscribe l p)
           (emitted w (fst (transcribe lower wm audio_data w))).
Proof.
  intros Hd Ha.
  assert (E : transcribe lower wm audio_data w
              = (World (files w)
                   (log w ++ [EvDetectLanguage; EvPrintDetected lang conf]),
                 Ok (None, s2u "unsupported_language"))).
  { unfold transcribe, try_except, transcribe_try, bind.
    rewrite (detect_top_language_detects lang conf w Hd).
    cbn [fst snd]. rewrite Ha. cbn [negb]. unfold emit, ret.
    cbn [files log]. now rewrite <- app_assoc. }
  split; [exact E|].
  intros l p. rewrite E. cbn [fst]. rewrite emitted_app.
  intros [Hin|[Hin|[]]]; discriminate.
Qed.

(** Past the gate: the world and the transcript when the language is
    allowed and the model answers [raw]. *)
Lemma transcribe_allowed lang conf raw w :
  detects wm audio_data lang conf ->
  allowed_language lang = true ->
  model_transcribe wm audio_data lang (initial_prompt lang) = Ok raw ->
  transcribe lower wm audio_data w
  = (World (files w)
       (log w ++ [EvDetectLanguage;
                  EvModelTranscribe lang (initial_prompt lang)]),
     Ok (if hallucinated lower hallucinations (strip raw)
         then (None, s2u "no_speech")
         else if is_empty (strip raw) || (List.length (strip raw) <? 2)%nat
         then (None, s2u "no_speech")
         else (Some (strip raw), lang))).
Proof.
  intros Hd Ha Hr.
  unfold transcribe, try_except, transcribe_try, bind.
  rewrite (detect_top_language_detects lang conf w Hd).
  cbn [fst snd]. rewrite Ha. cbn [negb]. unfold emit, lift, ret.
  cbn [files log]. rewrite Hr, <- app_assoc. cbn [app].
  destruct (hallucinated lower hallucinations (strip raw)); auto.
  destruct (is_empty (strip raw) || (List.length (strip raw) <? 2)%nat); auto.
Qed.

Lemma hallucinated_true hs text h :
  In h hs -> contains (lower h) (lower text) = true ->
  (List.length text < 40)%nat ->
  hallucinated lower hs text = true.
Proof.
  intros Hin Hc Hl. apply Nat.ltb_lt in Hl.
  induction hs as [|h' hs IH]; [contradiction|]. simpl.
  destruct Hin as [->|Hin].
  - now rewrite Hc, Hl.
  - destruct (contains (lower h') (lower text) && (List.length text <? 40)%nat);
      auto.
Qed.

Lemma hallucinated_long hs text :
  (40 <= List.length text)%nat -> hallucinated lower hs text = false.
Proof.
  intros Hl. apply Nat.ltb_ge in Hl.
  induction hs as [|h hs IH]; simpl; auto.
  now rewrite Hl, andb_false_r.
Qed.

(** C8: with an allowed language and a transcript [raw] from the model,
    [transcribe] returns [(None, "no_speech")] when the trimmed transcript
    is empty, or shorter than 2 characters, or shorter than 40 characters
    with a hallucination phrase inside it (both in lower case); a trimmed
    transcript of 40 characters or more is returned as recognized. *)
Theorem transcribe_no_speech lang conf raw w :
  detects wm audio_data lang conf ->
  allowed_language lang = true ->
  model_transcribe wm audio_data lang (initial_prompt lang) = Ok raw ->
  (strip raw = []
   \/ (List.length (strip raw) < 2)%nat
   \/ (exists h, In h hallucinations
                 /\ contains (lower h) (lower (strip raw)) = true
                 /\ (List.length (strip raw) < 40)%nat) ->
   snd (transcribe lower wm audio_data w) = Ok (None, s2u "no_speech"))
  /\ ((40 <= List.length (strip raw))%nat ->
      snd (transcribe lower wm audio_data w) = Ok (Some (strip raw), lang)).
Proof.
  intros Hd Ha Hr.
  rewrite (transcribe_allowed lang conf raw w Hd Ha Hr). cbn [snd].
  split.
  - intros H.
    destruct (hallucinated lower hallucinations (strip raw)) eqn:Eh; auto.
    destruct H as [H|[H|(h & Hin & Hc & Hl)]].
    + now rewrite H.
    + apply Nat.ltb_lt in H. now rewrite H, orb_true_r.
    + rewrite (hallucinated_true _ _ h Hin Hc Hl) in Eh. discriminate.
  - intros Hl. rewrite (hallucinated_long _ _ Hl).
    destruct (strip raw) as [|c t] eqn:Et; [simpl in Hl; lia|].
    cbn [is_empty orb].
    replace (List.length (c :: t) <? 2)%nat with false; auto.
    symmetry. apply Nat.ltb_ge. lia.
Qed.

(** C6 (amended): an exception raised during detection or transcription
    makes [transcribe] return [(None, "error")] when it is a
    [RuntimeError], a [ValueError] or a [KeyError] (or of a subclass);
    an exception of another class leaves [transcribe] as it is. *)
Theorem transcribe_error_handling e w :
  stage_raises wm audio_data e ->
  snd (transcribe lower wm audio_data w)
  = if transcribe_catches e then Ok (None, s2u "error") else Raise e.
Proof.
  intros H.
  assert (T : exists w1, transcribe_try lower wm audio_data w = (w1, Raise e)).
  { unfold transcribe_try, detect_top_language, bind, lift, emit.
    destruct H as [Hp|p Hp Hm|p m Hp Hm Hd|p m probs Hp Hm Hd Hx
                   |lang conf Hd Ha Hr].
    - rewrite Hp. eauto.
    - rewrite Hp, Hm. eauto.
    - rewrite Hp, Hm. cbn. rewrite Hd. eauto.
    - rewrite Hp, Hm. cbn. rewrite Hd, Hx. eauto.
    - destruct Hd as (p & m & probs & Hp & Hm & Hd & Hx).
      rewrite Hp, Hm. cbn. rewrite Hd, Hx. cbn [fst snd].
      rewrite Ha. cbn. rewrite Hr. eauto. }
  destruct T as [w1 T]. unfold transcribe, try_except. rewrite T.
  destruct (transcribe_catches e); reflexivity.
Qed.
End Transcribe.

(** C1 on a recording in French. *)
Lemma transcribe_rejects_unsupported_witness :
  transcribe ascii_lower (hears (s2u "fr") (s2u "Bonjour")) tt empty_world
  = (World [] [EvDetectLanguage; EvPrintDetected (s2u "fr") (7 # 10)],
     Ok (None, s2u "unsupported_language")).
Proof.
  apply (transcribe_rejects_unsupported ascii_lower
           (hears (s2u "fr") (s2u "Bonjour")) tt (s2u "fr") (7 # 10)
           empty_world).
  - exists tt, tt, [(s2u "en", 1 # 10); (s2u "fr", 7 # 10); (s2u "es", 2 # 10)].
    repeat split.
  - reflexivity.
Defined.

(** C8 on the phrase that the model writes over silence, and on a sentence
    of more than 40 characters that holds the same phrase. *)
Lemma transcribe_no_speech_witness :
  snd (transcribe ascii_lower
         (hears (s2u "es") (s2u " Gracias por ver el video. ")) tt empty_world)
  = Ok (None, s2u "no_speech")
  /\ snd (transcribe ascii_lower
            (hears (s2u "es")
               (s2u " Gracias por ver la luna conmigo esta noche, Osito. "))
            tt empty_world)
     = Ok (Some (s2u "Gracias por ver la luna conmigo esta noche, Osito."),
           s2u "es").
Proof.
  split.
  - apply (proj1 (transcribe_no_speech ascii_lower
                    (hears (s2u "es") (s2u " Gracias por ver el video. ")) tt
                    (s2u "es") (7 # 10) (s2u " Gracias por ver el video. ")
                    empty_world
                    (ex_intro _ tt (ex_intro _ tt (ex_intro _ _
                       (conj eq_refl (conj eq_refl (conj eq_refl eq_refl))))))
                    eq_refl eq_refl)).
    right. right. exists (s2u "Gracias por ver"). repeat split.
    + simpl. tauto.
    + vm_compute. lia.
  - apply (proj2 (transcribe_no_speech ascii_lower
                    (hears (s2u "es")
                       (s2u " Gracias por ver la luna conmigo esta noche, Osito. "))
                    tt (s2u "es") (7 # 10)
                    (s2u " Gracias por ver la luna conmigo esta noche, Osito. ")
                    empty_world
                    (ex_intro _ tt (ex_intro _ tt (ex_intro _ _
                       (conj eq_refl (conj eq_refl (conj eq_refl eq_refl))))))
                    eq_refl eq_refl)).
    vm_compute. lia.
Defined.

(** C6 as stated fails: an [AssertionError] of the encoder during detection
    is not caught and leaves [transcribe]. *)
Lemma transcribe_propagates_assertion :
  transcribe ascii_lower fails_assertion tt empty_world
  = (World [] [EvDetectLanguage], Raise AssertionError).
Proof. reflexivity. Qed.

(** C6 (amended) on a [RuntimeError] of the decoder. *)
Lemma transcribe_error_handling_witness :
  snd (transcribe ascii_lower fails_decoding tt empty_world)
  = Ok (None, s2u "error").
Proof.
  apply (transcribe_error_handling ascii_lower fails_decoding tt RuntimeError
           empty_world).
  apply (raises_transcribe fails_decoding tt RuntimeError (s2u "es") (9 # 10)).
  - exists tt, tt, [(s2u "es", 9 # 10); (s2u "en", 1 # 10)]. repeat split.
  - reflexivity.
  - reflexivity.
Defined.

(* ================================================================= *)
(** ** Effects: what a computation logs *)

Lemma bind_ok {A B} (m : M A) (k : A -> M B) w w1 a :
  m w = (w1, Ok a) -> bind m k w = k a w1.
Proof. intros H. unfold bind. now rewrite H. Qed.

Lemma bind_raise {A B} (m : M A) (k : A -> M B) w w1 e :
  m w = (w1, Raise e) -> bind m k w = (w1, Raise e).
Proof. intros H. unfold bind. now rewrite H. Qed.

Lemma world_eta w : World (files w) (log w ++ []) = w.
Proof. destruct w. cbn. now rewrite app_nil_r. Qed.

Section LogsOnly.
Context {A : Type} (P : event -> bool).

Lemma logs_only_lift (r : result A) : logs_only P (lift r).
Proof.
  exists [], r. split; auto. intros w. unfold lift. now rewrite world_eta.
Qed.

Lemma logs_only_ret (a : A) : logs_only P (ret a).
Proof. apply (logs_only_lift (Ok a)). Qed.

Lemma logs_only_raise (e : exn) : logs_only P (@raise A e).
Proof. apply (logs_only_lift (Raise e)). Qed.

Lemma logs_only_try (m : M A) (h : exn -> M A) :
  logs_only P m -> (forall e, logs_only P (h e)) ->
  logs_only P (try_except m h).
Proof.
  intros (evs & r & Hp & Hm) Hh. destruct r as [a|e].
  - exists evs, (Ok a). split; auto. intros w.
    unfold try_except. now rewrite Hm.
  - destruct (Hh e) as (evs' & r' & Hp' & Hh').
    exists (evs ++ evs'), r'. split.
    + rewrite forallb_app, Hp, Hp'. reflexivity.
    + intros w. unfold try_except. rewrite Hm, Hh'. cbn.
      now rewrite app_assoc.
Qed.
End LogsOnly.

Lemma logs_only_emit P ev : P ev = true -> logs_only P (emit ev).
Proof.
  intros H. exists [ev], (Ok tt). split; [simpl; now rewrite H|].
  reflexivity.
Qed.

Lemma logs_only_bind {A B} P (m : M A) (k : A -> M B) :
  logs_only P m -> (forall a, logs_only P (k a)) -> logs_only P (bind m k).
Proof.
  intros (evs & r & Hp & Hm) Hk. destruct r as [a|e].
  - destruct (Hk a) as (evs' & r' & Hp' & Hk').
    exists (evs ++ evs'), r'. split.
    + rewrite forallb_app, Hp, Hp'. reflexivity.
    + intros w. unfold bind. rewrite Hm, Hk'. cbn. now rewrite app_assoc.
  - exists evs, (Raise e). split; auto. intros w. unfold bind. now rewrite Hm.
Qed.

Ltac log_normal :=
  repeat first
    [ progress unfold emit, ret, raise, lift
    | progress cbn [files log fst snd]
    | rewrite <- app_assoc ].

Ltac logs_only_step :=
  first
    [ apply logs_only_ret
    | apply logs_only_raise
    | apply logs_only_lift
    | apply logs_only_emit; reflexivity
    | apply logs_only_bind; [|intros ?]
    | apply logs_only_try; [|intros ?]
    | match goal with
      | |- logs_only _ (if ?c then _ else _) => destruct c
      end
    | progress cbv zeta ].

Lemma transcribe_logs {audio mel} lower (wm : whisper audio mel) a :
  logs_only is_stt_event (transcribe lower wm a).
Proof.
  unfold transcribe, transcribe_try, detect_top_language.
  repeat logs_only_step.
Qed.

(* ================================================================= *)
(** ** [speak] *)

Section Speak.
Context {audio mel : Type}.
Variable b : backends audio mel.

Lemma unlink_created p fs evs :
  unlink p (World (p :: fs) evs)
  = (World (filter (fun q => negb (Nat.eqb p q)) fs) evs, Ok tt).
Proof.
  unfold unlink. cbn. rewrite Nat.eqb_refl. reflexivity.
Qed.

(** On a text that can be encoded [speak] returns, unless the synthesis
    tool fails with a standard error that cannot be decoded; it adds events
    of synthesis, of playing and of printing. *)
Lemma speak_result text w :
  encodable text = true ->
  exists fs evs,
    speak b text w = (World fs (log w ++ evs), speak_outcome b text (files w))
    /\ forallb is_tts_event evs = true.
Proof.
  intros He.
  unfold speak, try_except, speak_try, bind, named_temporary_file,
    subprocess_run, speak_outcome, stderr_garbled.
  destruct (mkstemp b (files w)) as [p|].
  - rewrite He. cbn [ret emit files log].
    destruct (piper b text p) as [rc| |]; cbn;
      [destruct (rc =? 0); cbn;
       [destruct (afplay b p) as [rc'| |]; cbn;
        [destruct (rc' =? 0); cbn; [rewrite unlink_created|] | |]
       |destruct (piper_stderr b text p); cbn] | |];
      log_normal; eexists _, _; split; reflexivity.
  - cbn. log_normal. eexists _, _. split; reflexivity.
Qed.

(** Where the cleanup is: after a synthesis and a playing that both end
    with return code 0, the temporary file is unlinked. *)
Lemma speak_success_unlinks text w p :
  mkstemp b (files w) = Some p ->
  encodable text = true ->
  piper b text p = Exited 0 ->
  afplay b p = Exited 0 ->
  speak b text w
  = (World (filter (fun q => negb (Nat.eqb p q)) (files w))
       (log w ++ [EvPiper text p; EvPlay p]), Ok tt).
Proof.
  intros Hm He Hp Ha.
  unfold speak, try_except, speak_try, bind, named_temporary_file,
    subprocess_run.
  rewrite Hm, He. cbn [ret emit files log]. rewrite Hp. cbn.
  rewrite Z.eqb_refl. cbn. log_normal. rewrite Ha, Z.eqb_refl. cbn.
  log_normal. rewrite unlink_created. reflexivity.
Qed.

(** On the other paths the file stays: [os.unlink] is the last statement
    of the [try] block and no handler repeats it. *)
Lemma speak_failure_leaves_file text w p :
  mkstemp b (files w) = Some p ->
  encodable text = true ->
  piper b text p <> Exited 0 \/ afplay b p <> Exited 0 ->
  In p (files (fst (speak b text w))).
Proof.
  intros Hm He Hf.
  unfold speak, try_except, speak_try, bind, named_temporary_file,
    subprocess_run.
  rewrite Hm, He. cbn [ret emit files log].
  destruct (piper b text p) as [rc| |]; cbn; log_normal; auto.
  destruct (rc =? 0) eqn:Erc; cbn; log_normal;
    [|destruct (piper_stderr b text p); cbn; log_normal; auto].
  apply Z.eqb_eq in Erc. subst rc.
  destruct Hf as [Hf|Hf]; [congruence|].
  destruct (afplay b p) as [rc'| |]; cbn; log_normal; auto.
  destruct (rc' =? 0) eqn:Erc'; cbn; log_normal; auto.
  apply Z.eqb_eq in Erc'. subst rc'. congruence.
Qed.
End Speak.

(** C7 (the code departs from the claim): the temporary file, here number
    7, is still there after [speak] when the synthesis tool exits with
    code 1 or runs past the timeout, and when the player exits with code 1,
    runs past the timeout or cannot be started; it is deleted only when
    both end with code 0. *)
Theorem speak_leaves_temp_file :
  files (fst (speak (tts_ends (Exited 1) (Exited 0)) (s2u "Hola") empty_world))
  = [7%nat]
  /\ files (fst (speak (tts_ends TimedOut (Exited 0)) (s2u "Hola") empty_world))
     = [7%nat]
  /\ files (fst (speak (tts_ends (Exited 0) (Exited 1)) (s2u "Hola") empty_world))
     = [7%nat]
  /\ files (fst (speak (tts_ends (Exited 0) TimedOut) (s2u "Hola") empty_world))
     = [7%nat]
  /\ files (fst (speak (tts_ends (Exited 0) NotStarted) (s2u "Hola") empty_world))
     = [7%nat]
  /\ files (fst (speak (tts_ends (Exited 0) (Exited 0)) (s2u "Hola") empty_world))
     = [].
Proof. repeat split; vm_compute; reflexivity. Qed.

(* ================================================================= *)
(** ** The conversation history *)

Lemma last_n_length {A} n (l : list A) : (List.length (last_n n l) <= n)%nat.
Proof. unfold last_n. rewrite length_skipn. lia. Qed.

Lemma push_turn_length h u a :
  (List.length (push_turn h u a) <= 2 * MAX_HISTORY_TURNS)%nat.
Proof.
  unfold push_turn.
  destruct (Nat.ltb_spec (MAX_HISTORY_TURNS * 2)
              (List.length ((h ++ [Msg (s2u "user") u])
                            ++ [Msg (s2u "assistant") a]))) as [L|L].
  - rewrite Nat.mul_comm. apply last_n_length.
  - lia.
Qed.

(** Pushing on the last messages of a record gives the last messages of the
    longer record. *)
Lemma push_turn_last_n full u a :
  push_turn (last_n (MAX_HISTORY_TURNS * 2) full) u a
  = last_n (MAX_HISTORY_TURNS * 2) (full ++ exchange_messages (u, a)).
Proof.
  unfold push_turn, exchange_messages, last_n. cbn [fst snd].
  rewrite <- !app_assoc. cbn [app].
  set (x := [Msg (s2u "user") u; Msg (s2u "assistant") a]).
  rewrite !length_app, length_skipn. cbn [List.length x].
  change (MAX_HISTORY_TURNS * 2)%nat with 8%nat.
  destruct (Nat.ltb_spec 8 (List.length full - (List.length full - 8) + 2))
    as [L|L].
  - rewrite !skipn_app, skipn_skipn, length_skipn.
    f_equal; f_equal; lia.
  - replace (List.length full - 8)%nat with 0%nat by lia.
    replace (List.length full + 2 - 8)%nat with 0%nat by lia.
    reflexivity.
Qed.

Lemma history_after_last_n exchanges full :
  history_after exchanges (last_n (MAX_HISTORY_TURNS * 2) full)
  = last_n (MAX_HISTORY_TURNS * 2)
      (full ++ flat_map exchange_messages exchanges).
Proof.
  revert full; induction exchanges as [|[u a] xs IH]; intros full.
  - cbn. now rewrite app_nil_r.
  - cbn [history_after fold_left fst snd flat_map].
    rewrite push_turn_last_n. unfold history_after in IH. rewrite IH.
    now rewrite <- app_assoc.
Qed.

Lemma skipn_exchanges k exchanges :
  skipn (k * 2) (flat_map exchange_messages exchanges)
  = flat_map exchange_messages (skipn k exchanges).
Proof.
  revert exchanges; induction k as [|k IH]; intros [|x xs]; auto.
  cbn [Nat.mul Nat.add flat_map exchange_messages app skipn]. apply IH.
Qed.

Lemma length_exchanges exchanges :
  List.length (flat_map exchange_messages exchanges)
  = (List.length exchanges * 2)%nat.
Proof.
  induction exchanges as [|x xs IH]; auto.
  cbn [flat_map exchange_messages app List.length]. rewrite IH. lia.
Qed.

Lemma history_after_exchanges exchanges :
  history_after exchanges []
  = flat_map exchange_messages (last_n MAX_HISTORY_TURNS exchanges).
Proof.
  change (@nil message) with (last_n (MAX_HISTORY_TURNS * 2) (@nil message)).
  rewrite history_after_last_n. cbn [app]. unfold last_n.
  rewrite length_exchanges, <- Nat.mul_sub_distr_r.
  apply skipn_exchanges.
Qed.

Lemma history_after_length exchanges :
  (List.length (history_after exchanges []) <= 2 * MAX_HISTORY_TURNS)%nat.
Proof.
  rewrite history_after_exchanges, length_exchanges.
  pose proof (last_n_length MAX_HISTORY_TURNS exchanges). lia.
Qed.

(** C2: after any sequence of exchanges pushed on the empty history of the
    start, the history holds at most [2 * MAX_HISTORY_TURNS] = 8 messages,
    and it is made of the last [MAX_HISTORY_TURNS] exchanges, each as its
    user message followed by its assistant message, oldest first; the bound
    holds after a push on any history. *)
Theorem history_bounded_fifo (exchanges : list (pystr * pystr)) :
  (List.length (history_after exchanges []) <= 2 * MAX_HISTORY_TURNS)%nat
  /\ (2 * MAX_HISTORY_TURNS = 8)%nat
  /\ history_after exchanges []
     = flat_map exchange_messages (last_n MAX_HISTORY_TURNS exchanges)
  /\ (forall h u a,
        (List.length (push_turn h u a) <= 2 * MAX_HISTORY_TURNS)%nat).
Proof.
  split; [apply history_after_length|].
  split; [reflexivity|].
  split; [apply history_after_exchanges | apply push_turn_length].
Qed.

(* ================================================================= *)
(** ** A rejected turn *)

Section RejectedTurn.
Context {audio mel : Type}.
Variable lower : pystr -> pystr.
Variable SYSTEM_PROMPT : pystr.
Variable b : backends audio mel.

Lemma fallback_msg_encodable status : encodable (fallback_msg status) = true.
Proof.
  unfold fallback_msg.
  destruct (str_eqb status (s2u "unsupported_language")); reflexivity.
Qed.

(** The whole of a rejected turn: the notice, the events of the
    transcription, the fallback message printed and then given to [speak];
    the pass ends as [speak] ends, and goes on with the history it had. *)
Lemma loop_body_rejected history typed audio_data status w :
  str_eqb (lower (strip typed)) (s2u "salir") = false ->
  snd (transcribe lower (whisper_model b) audio_data w)
  = Ok (None, status) ->
  exists fs stt tts,
    forallb is_stt_event stt = true
    /\ forallb is_tts_event tts = true
    /\ fst (speak b (fallback_msg status) (before_fallback w stt status))
       = World fs (log (before_fallback w stt status) ++ tts)
    /\ loop_body lower SYSTEM_PROMPT b history (Ok typed) (Ok audio_data) w
       = (World fs (log (before_fallback w stt status) ++ tts),
          if stderr_garbled b (fallback_msg status) (files w)
          then Raise UnicodeDecodeError
          else Ok (Continue history)).
Proof.
  intros Hs Ht.
  destruct (transcribe_logs lower (whisper_model b) audio_data)
    as (stt & r & Hstt & Hr).
  rewrite Hr in Ht. cbn [snd] in Ht. subst r.
  destruct (speak_result b (fallback_msg status)
              (before_fallback w stt status)
              (fallback_msg_encodable status)) as (fs & tts & Hsp & Htts).
  exists fs, stt, tts. split; [exact Hstt|]. split; [exact Htts|].
  split; [now rewrite Hsp|].
  unfold loop_body. rewrite (bind_ok _ _ w w typed eq_refl).
  cbv beta zeta. rewrite Hs.
  rewrite (bind_ok _ _ w w audio_data eq_refl).
  rewrite (bind_ok _ _ w _ tt eq_refl).
  rewrite (bind_ok _ _ _ _ _ (Hr _)). cbn [fst snd files log].
  assert (W : forall msg,
             World (files w)
               (((log w ++ [EvPrint (s2u "Procesando...")]) ++ stt)
                ++ [EvPrint (osito_line msg)])
             = World (files w)
                 (log w ++ [EvPrint (s2u "Procesando...")] ++ stt
                  ++ [EvPrint (osito_line msg)])).
  { intros msg. now rewrite <- !app_assoc. }
  unfold before_fallback, fallback_msg, speak_outcome in *.
  cbn [files] in Hsp.
  destruct (str_eqb status (s2u "unsupported_language"));
    unfold bind, emit at 1; cbn [files log]; rewrite W, Hsp;
    match goal with
    | |- context [stderr_garbled ?x ?y ?z] => destruct (stderr_garbled x y z)
    end; reflexivity.
Qed.

(** C5: when [transcribe] rejects the recording, with any status, the
    fallback message is printed and given to [speak], no request goes to
    the chat backend, and the pass ends as [speak] ends: it goes on with
    the history it started with, or, when the synthesis tool fails with a
    standard error that cannot be decoded, the [UnicodeDecodeError] that
    [speak] does not handle leaves the pass. No other history comes out
    of a rejected turn. *)
Theorem rejected_turn_keeps_history history typed audio_data status w :
  str_eqb (lower (strip typed)) (s2u "salir") = false ->
  snd (transcribe lower (whisper_model b) audio_data w)
  = Ok (None, status) ->
  snd (loop_body lower SYSTEM_PROMPT b history (Ok typed) (Ok audio_data) w)
  = (if stderr_garbled b (fallback_msg status) (files w)
     then Raise UnicodeDecodeError
     else Ok (Continue history))
  /\ (exists stt,
        forallb is_stt_event stt = true
        /\ fst (loop_body lower SYSTEM_PROMPT b history (Ok typed)
                  (Ok audio_data) w)
           = fst (speak b (fallback_msg status)
                    (before_fallback w stt status)))
  /\ forall messages,
       ~ In (EvChat messages)
           (emitted w
              (fst (loop_body lower SYSTEM_PROMPT b history (Ok typed)
                      (Ok audio_data) w))).
Proof.
  intros Hs Ht.
  destruct (loop_body_rejected history typed audio_data status w Hs Ht)
    as (fs & stt & tts & Hstt & Htts & Hsp & E).
  rewrite E. cbn [fst snd].
  split; [reflexivity|]. split.
  - exists stt. split; [exact Hstt|]. now rewrite Hsp.
  - intros messages. unfold before_fallback. cbn [log].
    rewrite <- !app_assoc, emitted_app, !in_app_iff.
    rewrite forallb_forall in Hstt, Htts.
    intros [[H|[]]|[H|[[H|[]]|H]]]; try discriminate.
    + apply Hstt in H. discriminate.
    + apply Htts in H. discriminate.
Qed.
End RejectedTurn.

(** C5 on a recording in French, on the phrase that the model writes over
    silence, on a failure of the decoder, and on a recording in French when
    the standard error of the failing synthesis tool cannot be decoded. *)
Lemma rejected_turn_keeps_history_witness :
  snd (loop_body ascii_lower []
         (backends_of (hears (s2u "fr") (s2u "Bonjour")) (Exited 0) (Exited 0))
         ana_history (Ok []) (Ok tt) empty_world)
  = Ok (Continue ana_history)
  /\ snd (loop_body ascii_lower []
            (backends_of (hears (s2u "en") (s2u " Thank you for watching! "))
               (Exited 1) (Exited 0))
            ana_history (Ok []) (Ok tt) empty_world)
     = Ok (Continue ana_history)
  /\ snd (loop_body ascii_lower []
            (backends_of fails_decoding (Exited 0) TimedOut)
            ana_history (Ok []) (Ok tt) empty_world)
     = Ok (Continue ana_history)
  /\ snd (loop_body ascii_lower [] tts_garbled ana_history (Ok []) (Ok tt)
            empty_world)
     = Raise UnicodeDecodeError.
Proof.
  split; [|split; [|split]].
  - exact (proj1 (rejected_turn_keeps_history ascii_lower []
                    (backends_of (hears (s2u "fr") (s2u "Bonjour"))
                       (Exited 0) (Exited 0))
                    ana_history [] tt (s2u "unsupported_language") empty_world
                    eq_refl eq_refl)).
  - exact (proj1 (rejected_turn_keeps_history ascii_lower []
                    (backends_of
                       (hears (s2u "en") (s2u " Thank you for watching! "))
                       (Exited 1) (Exited 0))
                    ana_history [] tt (s2u "no_speech") empty_world
                    eq_refl eq_refl)).
  - exact (proj1 (rejected_turn_keeps_history ascii_lower []
                    (backends_of fails_decoding (Exited 0) TimedOut)
                    ana_history [] tt (s2u "error") empty_world
                    eq_refl eq_refl)).
  - exact (proj1 (rejected_turn_keeps_history ascii_lower [] tts_garbled
                    ana_history [] tt (s2u "unsupported_language") empty_world
                    eq_refl eq_refl)).
Defined.

(* ================================================================= *)
(** ** The history in the loop *)

Section LoopHistory.
Context {audio mel : Type}.
Variable lower : pystr -> pystr.
Variable SYSTEM_PROMPT : pystr.
Variable b : backends audio mel.

(** A pass that goes on leaves the history as it was or pushes one
    exchange on it. *)
Lemma loop_body_continue history typed recorded w w' h :
  loop_body lower SYSTEM_PROMPT b history typed recorded w
  = (w', Ok (Continue h)) ->
  h = history \/ exists text response, h = push_turn history text response.
Proof.
  unfold loop_body, bind, lift, ret. intros H.
  repeat match type of H with
         | context [if ?x then _ else _] => destruct x
         | context [match ?x with _ => _ end] => destruct x; try discriminate
         end;
    inversion H; eauto.
Qed.

Lemma history_after_push exchanges text response :
  push_turn (history_after exchanges []) text response
  = history_after (exchanges ++ [(text, response)]) [].
Proof. unfold history_after. now rewrite fold_left_app. Qed.

(** Whatever the user and the backends do, the history that the loop holds
    is the history after some list of exchanges, so it obeys C2. *)
Lemma run_turns_history turns : forall history w w' h,
  (exists exchanges, history = history_after exchanges []) ->
  run_turns lower SYSTEM_PROMPT b history turns w = (w', Ok h) ->
  exists exchanges, h = history_after exchanges [].
Proof.
  induction turns as [|[typed recorded] turns IH]; intros history w w' h Hx.
  - cbn. unfold ret. intros H. inversion H. subst. exact Hx.
  - cbn [run_turns]. unfold bind at 1.
    destruct (loop_body lower SYSTEM_PROMPT b history typed recorded w)
      as [w1 [[|h1]|e]] eqn:E; try discriminate.
    + unfold ret. intros H. inversion H. subst. exact Hx.
    + apply IH. destruct Hx as [xs ->].
      destruct (loop_body_continue _ _ _ _ _ _ E) as [->|(t & r & ->)].
      * now exists xs.
      * exists (xs ++ [(t, r)]). apply history_after_push.
Qed.

Lemma main_loop_history_bounded turns w w' h :
  main_loop lower SYSTEM_PROMPT b turns w = (w', Ok h) ->
  (List.length h <= 2 * MAX_HISTORY_TURNS)%nat.
Proof.
  unfold main_loop, bind.
  destruct (emit (EvPrint (osito_line greeting)) w) as [w1 [[]|e]];
    try discriminate.
  destruct (speak b greeting w1) as [w2 [[]|e]]; try discriminate.
  intros H. apply run_turns_history in H; [|now exists []].
  destruct H as [xs ->]. apply history_after_length.
Qed.
End LoopHistory.

(** The scenario of the spec, with a reply that carries no label: the
    exchange is pushed on the empty history. *)
Example successful_turn :
  snd (loop_body ascii_lower []
         (backends_of (hears (s2u "es") (s2u " Hola, me llamo Ana "))
            (Exited 0) (Exited 0))
         [] (Ok []) (Ok tt) empty_world)
  = Ok (Continue
          [Msg (s2u "user") (s2u "Hola, me llamo Ana");
           Msg (s2u "assistant") (s2u "Hola! Te gusta el azul?")]).
Proof. vm_compute. reflexivity. Qed.

Example exit_command :
  loop_body ascii_lower [] (tts_ends (Exited 0) (Exited 0)) ana_history
    (Ok (s2u " SALIR ")) (Ok tt) empty_world
  = (World [] [EvPrint (osito_line bye); EvPiper bye 7%nat; EvPlay 7%nat],
     Ok Break).
Proof. vm_compute. reflexivity. Qed.

(* ================================================================= *)
(** ** More on the sanitizer *)

Lemma sub_runs_filter cls b s :
  sub_runs cls [] b s = filter (fun c => negb (cls c)) s.
Proof.
  revert b; induction s as [|c s IH]; intros b; simpl; auto.
  destruct (cls c); simpl.
  - destruct b; apply IH.
  - f_equal. apply IH.
Qed.

(** X1: [strip_emojis] deletes the code points of the emoji ranges, keeps
    the others in their order and trims the result; a second application
    changes nothing. *)
Theorem strip_emojis_filter (text : pystr) :
  strip_emojis text = strip (filter not_emoji text)
  /\ strip_emojis (strip_emojis text) = strip_emojis text.
Proof.
  unfold strip_emojis, re_sub_class. split.
  - now rewrite sub_runs_filter.
  - rewrite (sub_runs_none is_emoji [] false
               (strip (sub_runs is_emoji [] false text))).
    + apply strip_idem.
    + apply keep_strip, sub_runs_removes.
Qed.

(** X2: the ten ranges of the pattern cover four intervals,
    U+24C2..U+1F251, U+1F300..U+1F64F, U+1F680..U+1F6FF and
    U+1F900..U+1FAFF; no code point below U+24C2 is ever removed. *)
Theorem emoji_ranges_union (c : Z) :
  is_emoji c = true
  <-> (0x24C2 <= c <= 0x1F251 \/ 0x1F300 <= c <= 0x1F64F
       \/ 0x1F680 <= c <= 0x1F6FF \/ 0x1F900 <= c <= 0x1FAFF).
Proof.
  unfold is_emoji, emoji_ranges, in_range. cbn [existsb fst snd].
  rewrite !orb_true_iff, !andb_true_iff, !Z.leb_le. lia.
Qed.

Lemma spaced_space b s c :
  spaced b s = true -> In c s -> isspace c = true -> c = 32.
Proof.
  revert b; induction s as [|x s IH]; intros b H Hin Hc; [contradiction|].
  simpl in H. destruct Hin as [->|Hin].
  - rewrite Hc in H. apply andb_true_iff in H as [H _].
    apply andb_true_iff in H as [H _]. now apply Z.eqb_eq.
  - destruct (isspace x).
    + apply andb_true_iff in H as [_ H]. eauto.
    + eauto.
Qed.

Lemma spaced_no_double b pre c d post :
  spaced b (pre ++ c :: d :: post) = true ->
  isspace c = true -> isspace d = false.
Proof.
  revert b; induction pre as [|x pre IH]; intros b H Hc.
  - cbn [app] in H. simpl in H. rewrite Hc in H.
    apply andb_true_iff in H as [_ H].
    destruct (isspace d); auto.
    apply andb_true_iff in H as [H _]. apply andb_true_iff in H as [_ H].
    discriminate.
  - cbn [app] in H. simpl in H. destruct (isspace x).
    + apply andb_true_iff in H as [_ H]. eauto.
    + eauto.
Qed.

Lemma rstrip_trailing_space pre c :
  isspace c = true -> rstrip (pre ++ [c]) = rstrip pre.
Proof.
  intros Hc. induction pre as [|x pre IH].
  - simpl. now rewrite Hc.
  - cbn [app rstrip]. now rewrite IH.
Qed.

Lemma trimmed_rstrip s : trimmed s -> rstrip s = s.
Proof.
  unfold trimmed, strip. intros H. rewrite <- H at 1.
  rewrite rstrip_idem. exact H.
Qed.

Lemma trimmed_last s pre c : trimmed s -> s = pre ++ [c] -> isspace c = false.
Proof.
  intros Ht ->. destruct (isspace c) eqn:Hc; auto.
  apply trimmed_rstrip in Ht. rewrite (rstrip_trailing_space pre c Hc) in Ht.
  pose proof (rstrip_length pre) as L. rewrite Ht, length_app in L.
  simpl in L. lia.
Qed.

(** X3: in the sanitized text every whitespace character is the space
    U+0020, no whitespace follows whitespace, and neither the first nor the
    last character is whitespace. *)
Theorem sanitize_whitespace_normal (raw : pystr) :
  (forall c, In c (sanitize raw) -> isspace c = true -> c = 32)
  /\ (forall pre c d post,
        sanitize raw = pre ++ c :: d :: post ->
        isspace c = true -> isspace d = false)
  /\ (forall c rest, sanitize raw = c :: rest -> isspace c = false)
  /\ (forall pre c, sanitize raw = pre ++ [c] -> isspace c = false).
Proof.
  destruct (sanitize_cleaned raw) as [_ _ Ht Hs].
  split; [|split; [|split]].
  - intros c. apply (spaced_space false _ c Hs).
  - intros pre c d post E. rewrite E in Hs.
    apply (spaced_no_double false pre c d post Hs).
  - intros c rest E. pose proof (no_lead_strip (sanitize raw)) as N.
    rewrite Ht, E in N. simpl in N. now apply negb_true_iff.
  - intros pre c E. apply (trimmed_last _ pre c Ht E).
Qed.

(** X4: the texts that [sanitize] returns unchanged are exactly the
    non-empty texts without asterisk and without code point of the emoji
    ranges, trimmed, with whitespace in normal form, that do not start with
    "Osito:" or "osito:". *)
Theorem sanitize_fixed_points (y : pystr) :
  sanitize y = y
  <-> (cleaned y /\ y <> []
       /\ startswith (s2u "Osito:") y = false
       /\ startswith (s2u "osito:") y = false).
Proof.
  split.
  - intros E. split; [rewrite <- E; apply sanitize_cleaned|]. split.
    + intros N. pose proof (sanitize_nonempty y) as X. rewrite E, N in X.
      discriminate.
    + pose proof (sanitize_label_not_fixed y) as L. rewrite !E in L.
      destruct (startswith (s2u "Osito:") y); [exfalso; apply L; auto|].
      destruct (startswith (s2u "osito:") y); [exfalso; apply L; auto|].
      auto.
  - intros (Hc & Hn & H1 & H2). unfold sanitize.
    rewrite (clean_fixed y Hc H1 H2).
    destruct y; [congruence | reflexivity].
Qed.

Lemma clean_length raw : (List.length (clean raw) <= List.length raw)%nat.
Proof.
  pose proof (clean_length_after_prefixes raw).
  pose proof (prefixes_length label_prefixes (strip raw)).
  pose proof (strip_length raw). lia.
Qed.

(** Every character of [raw] is a character of [raw] or the space. *)
Lemma from_raw_all raw :
  forallb (fun c => (c =? 32) || existsb (Z.eqb c) raw) raw = true.
Proof.
  apply forallb_forall. intros c Hin. apply orb_true_iff. right.
  apply existsb_exists. exists c. split; auto. apply Z.eqb_refl.
Qed.

(** X5: sanitizing only deletes: unless the default sentence is
    substituted, the result is no longer than the input and each of its
    characters is a character of the input or the space U+0020. *)
Theorem sanitize_only_deletes (raw : pystr) :
  sanitize raw = default_reply
  \/ ((List.length (sanitize raw) <= List.length raw)%nat
      /\ forall c, In c (sanitize raw) -> In c raw \/ c = 32).
Proof.
  unfold sanitize. destruct (is_empty (clean raw)); [now left|right].
  split; [apply clean_length|].
  assert (K : forallb (fun c => (c =? 32) || existsb (Z.eqb c) raw)
                (clean raw) = true).
  { unfold clean, strip_emojis, re_sub_class, replace.
    apply keep_strip, keep_sub_runs; [reflexivity|].
    apply keep_strip, keep_sub_runs; [reflexivity|].
    apply keep_replace_from; [reflexivity|].
    apply keep_replace_from; [reflexivity|].
    apply keep_prefixes, keep_strip, from_raw_all. }
  intros c Hin. rewrite forallb_forall in K. apply K in Hin.
  apply orb_true_iff in Hin as [Hin|Hin].
  - right. now apply Z.eqb_eq.
  - left. apply existsb_exists in Hin as (x & Hx & E).
    apply Z.eqb_eq in E. now subst.
Qed.

(* ================================================================= *)
(** ** More on [transcribe] *)

Open Scope Q_scope.

(** Where [max_from] finds its result: strictly above what comes before it,
    at least what comes after it. *)
Lemma max_from_first rest : forall best before between,
  (forall x, In x before -> snd x < snd best) ->
  (forall x, In x between -> snd x <= snd best) ->
  exists pre post,
    before ++ best :: between ++ rest = pre ++ max_from best rest :: post
    /\ (forall x, In x pre -> snd x < snd (max_from best rest))
    /\ (forall x, In x post -> snd x <= snd (max_from best rest)).
Proof.
  induction rest as [|y rest IH]; intros best before between Hb Hm.
  - exists before, between. cbn. rewrite app_nil_r. auto.
  - cbn [max_from]. destruct (Qle_bool (snd y) (snd best)) eqn:E; cbn [negb].
    + apply Qle_bool_iff in E.
      destruct (IH best before (between ++ [y]) Hb) as (pre & post & H).
      * intros x Hin. apply in_app_iff in Hin as [Hin|[<-|[]]]; auto.
      * exists pre, post. rewrite <- app_assoc in H. exact H.
    + assert (L : snd best < snd y).
      { destruct (Qlt_le_dec (snd best) (snd y)) as [L|L]; auto.
        apply Qle_bool_iff in L. congruence. }
      destruct (IH y (before ++ best :: between) []) as (pre & post & H).
      * intros x Hin. apply in_app_iff in Hin as [Hin|[<-|Hin]].
        -- eapply Qlt_trans; [apply Hb, Hin | exact L].
        -- exact L.
        -- eapply Qle_lt_trans; [apply Hm, Hin | exact L].
      * intros x [].
      * exists pre, post. rewrite <- app_assoc in H. exact H.
Qed.

(** X6: [max(probs, key=probs.get)] returns the first language of the
    largest probability: every language before it in the dict is strictly
    less probable, every language after it is at most as probable. *)
Theorem py_max_first probs lang conf :
  py_max probs = Ok (lang, conf) ->
  exists pre post,
    probs = pre ++ (lang, conf) :: post
    /\ (forall x, In x pre -> snd x < conf)
    /\ (forall x, In x post -> snd x <= conf).
Proof.
  destruct probs as [|best rest]; [discriminate|]. cbn [py_max].
  intros H. inversion H as [E].
  destruct (max_from_first rest best [] []) as (pre & post & H1 & H2 & H3).
  - intros x [].
  - intros x [].
  - cbn [app] in H1. rewrite E in H1, H2, H3. cbn [snd] in H2, H3.
    exists pre, post. rewrite ?E. split; [exact H1|]. split; assumption.
Qed.

(** A tie between English and Spanish goes to the one that comes first. *)
Lemma py_max_first_witness :
  exists pre post,
    [(s2u "fr", 1 # 10); (s2u "en", 3 # 10); (s2u "es", 3 # 10)]
    = pre ++ (s2u "en", 3 # 10) :: post
    /\ (forall x, In x pre -> snd x < 3 # 10)
    /\ (forall x, In x post -> snd x <= 3 # 10).
Proof.
  apply (py_max_first
           [(s2u "fr", 1 # 10); (s2u "en", 3 # 10); (s2u "es", 3 # 10)]
           (s2u "en") (3 # 10)).
  reflexivity.
Defined.

Close Scope Q_scope.

Section TranscribeCases.
Context {audio mel : Type}.
Variable lower : pystr -> pystr.
Variable wm : whisper audio mel.
Variable audio_data : audio.

Lemma transcribe_cases : transcribe_case wm audio_data.
Proof.
  destruct (pad_or_trim wm audio_data) as [p|e] eqn:Hp;
    [|exact (case_raises wm audio_data e (raises_pad wm audio_data e Hp))].
  destruct (log_mel_spectrogram wm p) as [m|e] eqn:Hm;
    [|exact (case_raises wm audio_data e (raises_mel wm audio_data e p Hp Hm))].
  destruct (detect_language wm m) as [probs|e] eqn:Hd;
    [|exact (case_raises wm audio_data e (raises_detect wm audio_data e p m Hp Hm Hd))].
  destruct (py_max probs) as [[lang conf]|e] eqn:Hx;
    [|exact (case_raises wm audio_data e (raises_max wm audio_data e p m probs Hp Hm Hd Hx))].
  assert (D : detects wm audio_data lang conf).
  { exists p, m, probs. auto. }
  destruct (allowed_language lang) eqn:Ha;
    [|exact (case_unsupported wm audio_data lang conf D Ha)].
  destruct (model_transcribe wm audio_data lang (initial_prompt lang))
    as [raw|e] eqn:Hr.
  - exact (case_transcript wm audio_data lang conf raw D Ha Hr).
  - exact (case_raises wm audio_data e (raises_transcribe wm audio_data e lang conf D Ha Hr)).
Qed.

Lemma transcribe_unsupported lang conf w :
  detects wm audio_data lang conf ->
  allowed_language lang = false ->
  transcribe lower wm audio_data w
  = (World (files w)
       (log w ++ [EvDetectLanguage; EvPrintDetected lang conf]),
     Ok (None, s2u "unsupported_language")).
Proof.
  intros Hd Ha. unfold transcribe, try_except, transcribe_try, bind.
  rewrite (detect_top_language_detects wm audio_data lang conf w Hd).
  cbn [fst snd]. rewrite Ha. cbn [negb]. unfold emit, ret.
  cbn [files log]. now rewrite <- app_assoc.
Qed.

Lemma transcribe_raised e w :
  stage_raises wm audio_data e ->
  snd (transcribe lower wm audio_data w)
  = (if transcribe_catches e then Ok (None, s2u "error") else Raise e)
  /\ files (fst (transcribe lower wm audio_data w)) = files w.
Proof.
  intros H.
  assert (T : exists evs, transcribe_try lower wm audio_data w
                          = (World (files w) (log w ++ evs), Raise e)).
  { unfold transcribe_try, detect_top_language, bind, lift, emit.
    destruct H as [Hp|p Hp Hm|p m Hp Hm Hd|p m probs Hp Hm Hd Hx
                   |lang conf Hd Ha Hr].
    - rewrite Hp. exists []. now rewrite world_eta.
    - rewrite Hp, Hm. exists []. now rewrite world_eta.
    - rewrite Hp, Hm. cbn. rewrite Hd. eauto.
    - rewrite Hp, Hm. cbn. rewrite Hd, Hx. eauto.
    - destruct Hd as (p & m & probs & Hp & Hm & Hd & Hx).
      rewrite Hp, Hm. cbn. rewrite Hd, Hx. cbn [fst snd].
      rewrite Ha. cbn. rewrite Hr, <- app_assoc. eauto. }
  destruct T as [evs T]. unfold transcribe, try_except. rewrite T.
  destruct (transcribe_catches e); split; reflexivity.
Qed.

(** What [transcribe] recognizes is in an allowed language, and what it
    lets through is an exception that its handler does not name. *)
Lemma recognized_allowed text lang w :
  snd (transcribe lower wm audio_data w) = Ok (Some text, lang) ->
  allowed_language lang = true.
Proof.
  intros H. destruct transcribe_cases as [e Hs|l c Hd Ha|l c raw Hd Ha Hr].
  - rewrite (proj1 (transcribe_raised e w Hs)) in H.
    destruct (transcribe_catches e); discriminate.
  - rewrite (transcribe_unsupported l c w Hd Ha) in H. discriminate.
  - rewrite (transcribe_allowed lower wm audio_data l c raw w Hd Ha Hr) in H.
    cbn [snd] in H.
    destruct (hallucinated lower hallucinations (strip raw)); [discriminate|].
    destruct (is_empty (strip raw) || (List.length (strip raw) <? 2)%nat);
      [discriminate|].
    inversion H; subst. exact Ha.
Qed.

Lemma raised_uncaught e w :
  snd (transcribe lower wm audio_data w) = Raise e ->
  transcribe_catches e = false.
Proof.
  intros H. destruct transcribe_cases as [e' Hs|l c Hd Ha|l c raw Hd Ha Hr].
  - rewrite (proj1 (transcribe_raised e' w Hs)) in H.
    destruct (transcribe_catches e') eqn:Ec; [discriminate|].
    inversion H; subst. exact Ec.
  - rewrite (transcribe_unsupported l c w Hd Ha) in H. discriminate.
  - rewrite (transcribe_allowed lower wm audio_data l c raw w Hd Ha Hr) in H.
    cbn [snd] in H.
    destruct (hallucinated lower hallucinations (strip raw)); [discriminate|].
    destruct (is_empty (strip raw) || (List.length (strip raw) <? 2)%nat);
      discriminate.
Qed.

(** X7: when [transcribe] recognizes a text, the language is "en" or "es",
    the text is the trimmed transcript that the model gave for that
    language and its priming phrase, it has at least 2 characters, and if
    it is shorter than 40 characters no hallucination phrase occurs in
    it. *)
Theorem transcribe_recognized text lang w :
  snd (transcribe lower wm audio_data w) = Ok (Some text, lang) ->
  (lang = s2u "en" \/ lang = s2u "es")
  /\ (exists conf raw,
        detects wm audio_data lang conf
        /\ model_transcribe wm audio_data lang (initial_prompt lang) = Ok raw
        /\ text = strip raw)
  /\ strip text = text
  /\ (2 <= List.length text)%nat
  /\ (forall h, In h hallucinations -> (List.length text < 40)%nat ->
        contains (lower h) (lower text) = false).
Proof.
  intros H. destruct transcribe_cases as [e Hs|l c Hd Ha|l c raw Hd Ha Hr].
  - rewrite (proj1 (transcribe_raised e w Hs)) in H.
    destruct (transcribe_catches e); discriminate.
  - rewrite (transcribe_unsupported l c w Hd Ha) in H. discriminate.
  - rewrite (transcribe_allowed lower wm audio_data l c raw w Hd Ha Hr) in H.
    cbn [snd] in H.
    destruct (hallucinated lower hallucinations (strip raw)) eqn:Eh;
      [discriminate|].
    destruct (is_empty (strip raw) || (List.length (strip raw) <? 2)%nat)
      eqn:El; [discriminate|].
    inversion H; subst. clear H.
    apply orb_false_iff in El as [_ El]. apply Nat.ltb_ge in El.
    split; [|split; [|split; [|split]]].
    + unfold allowed_language in Ha. apply orb_true_iff in Ha as [Ha|Ha];
        apply str_eqb_eq in Ha; auto.
    + exists c, raw. auto.
    + apply strip_idem.
    + exact El.
    + intros h Hin Hl.
      destruct (contains (lower h) (lower (strip raw))) eqn:Ec; auto.
      rewrite (hallucinated_true lower _ _ h Hin Ec Hl) in Eh. discriminate.
Qed.

(** X8: [transcribe] leaves the temporary files alone and ends in one of
    three ways: no text with the status "unsupported_language",
    "no_speech" or "error"; a text with the language "en" or "es"; or an
    exception that is no [RuntimeError], [ValueError] or [KeyError]. *)
Theorem transcribe_outcomes w :
  files (fst (transcribe lower wm audio_data w)) = files w
  /\ ((exists status,
         snd (transcribe lower wm audio_data w) = Ok (None, status)
         /\ (status = s2u "unsupported_language"
             \/ status = s2u "no_speech" \/ status = s2u "error"))
      \/ (exists text lang,
            snd (transcribe lower wm audio_data w) = Ok (Some text, lang)
            /\ (lang = s2u "en" \/ lang = s2u "es"))
      \/ (exists e,
            snd (transcribe lower wm audio_data w) = Raise e
            /\ transcribe_catches e = false)).
Proof.
  destruct transcribe_cases as [e Hs|l c Hd Ha|l c raw Hd Ha Hr].
  - destruct (transcribe_raised e w Hs) as [R F]. split; [exact F|].
    rewrite R. destruct (transcribe_catches e) eqn:Ec.
    + left. exists (s2u "error"). auto.
    + right. right. exists e. auto.
  - rewrite (transcribe_unsupported l c w Hd Ha). cbn [fst snd files].
    split; [reflexivity|]. left. exists (s2u "unsupported_language"). auto.
  - rewrite (transcribe_allowed lower wm audio_data l c raw w Hd Ha Hr).
    cbn [fst snd files]. split; [reflexivity|].
    destruct (hallucinated lower hallucinations (strip raw)).
    + left. exists (s2u "no_speech"). auto.
    + destruct (is_empty (strip raw) || (List.length (strip raw) <? 2)%nat).
      * left. exists (s2u "no_speech"). auto.
      * right. left. exists (strip raw), l. split; auto.
        unfold allowed_language in Ha. apply orb_true_iff in Ha as [Ha|Ha];
          apply str_eqb_eq in Ha; auto.
Qed.

(** X9: when detection gives an empty table of probabilities, [max] fails
    with a [ValueError]; [transcribe] returns [(None, "error")] after the
    detection and the print of the error, without a call of the model's
    transcription. *)
Theorem transcribe_empty_probs padded m w :
  pad_or_trim wm audio_data = Ok padded ->
  log_mel_spectrogram wm padded = Ok m ->
  detect_language wm m = Ok [] ->
  transcribe lower wm audio_data w
  = (World (files w)
       (log w ++ [EvDetectLanguage;
                  EvPrintError (s2u "Error en transcripcion") ValueError]),
     Ok (None, s2u "error")).
Proof.
  intros Hp Hm Hd.
  unfold transcribe, try_except, transcribe_try, detect_top_language, bind,
    lift, emit.
  rewrite Hp, Hm. cbn. rewrite Hd. cbn. now rewrite <- app_assoc.
Qed.
End TranscribeCases.

(** X7 on "Hola, me llamo Ana" heard in Spanish. *)
Lemma transcribe_recognized_witness :
  strip (s2u "Hola, me llamo Ana") = s2u "Hola, me llamo Ana"
  /\ (2 <= List.length (s2u "Hola, me llamo Ana"))%nat.
Proof.
  pose proof (transcribe_recognized ascii_lower
                (hears (s2u "es") (s2u " Hola, me llamo Ana ")) tt
                (s2u "Hola, me llamo Ana") (s2u "es") empty_world eq_refl)
    as (_ & _ & H1 & H2 & _).
  exact (conj H1 H2).
Defined.

(** A model whose detection returns an empty table. *)
Lemma transcribe_empty_probs_witness :
  transcribe ascii_lower
    (Whisper (fun a : unit => Ok a) (fun _ => Ok tt) (fun _ => Ok [])
       (fun _ _ _ => Ok (s2u "Hola")))
    tt empty_world
  = (World []
       [EvDetectLanguage;
        EvPrintError (s2u "Error en transcripcion") ValueError],
     Ok (None, s2u "error")).
Proof.
  apply (transcribe_empty_probs ascii_lower
           (Whisper (fun a : unit => Ok a) (fun _ => Ok tt) (fun _ => Ok [])
              (fun _ _ _ => Ok (s2u "Hola")))
           tt tt tt empty_world); reflexivity.
Defined.

(* ================================================================= *)
(** ** More on [speak] *)

Lemma emitted_log w w' evs : log w' = log w ++ evs -> emitted w w' = evs.
Proof.
  unfold emitted. intros ->. induction (log w); simpl; auto.
Qed.

Lemma filter_absent (p : path) fs :
  ~ In p fs -> filter (fun q => negb (Nat.eqb p q)) fs = fs.
Proof.
  intros H. apply forallb_filter_id, forallb_forall. intros q Hq.
  apply negb_true_iff, Nat.eqb_neq. intros ->. contradiction.
Qed.

Section SpeakMore.
Context {audio mel : Type}.
Variable b : backends audio mel.

Lemma speak_shape text w :
  encodable text = true ->
  exists fs evs,
    speak b text w = (World fs (log w ++ evs), speak_outcome b text (files w))
    /\ (stderr_garbled b text (files w) = true
        \/ played b text w \/ In (EvPrint (audio_line text)) evs).
Proof.
  intros He.
  unfold speak, try_except, speak_try, bind, named_temporary_file,
    subprocess_run, played, speak_outcome, stderr_garbled.
  destruct (mkstemp b (files w)) as [p|].
  - rewrite He. cbn [ret emit files log].
    destruct (piper b text p) as [rc| |] eqn:Ep; cbn;
      [destruct (rc =? 0) eqn:Erc; cbn;
       [destruct (afplay b p) as [rc'| |] eqn:Ea; cbn;
        [destruct (rc' =? 0) eqn:Erc'; cbn; [rewrite unlink_created|] | |]
       |destruct (piper_stderr b text p); cbn]
      | |];
      log_normal; eexists _, _; (split; [reflexivity|]);
      try (right; right; cbn [In app]; tauto); try (left; reflexivity).
    right. left. apply Z.eqb_eq in Erc, Erc'. subst. eauto.
  - cbn. log_normal. eexists _, _. split; [reflexivity|].
    right. right. cbn [In app]. tauto.
Qed.

(** X10: on a text without surrogate code point [speak] returns, whatever
    the creation of the temporary file, the synthesis tool and the player
    do, with one exception: when the synthesis tool exits with a code other
    than 0 and its standard error is not valid UTF-8, the
    [UnicodeDecodeError] of [process.stderr.decode()] leaves [speak]. When
    [speak] returns, unless the synthesis and the playing both ended with
    return code 0, the line "  [Audio]: " followed by the text has been
    printed instead. *)
Theorem speak_falls_back_to_text text w :
  encodable text = true ->
  snd (speak b text w)
  = (if stderr_garbled b text (files w)
     then Raise UnicodeDecodeError
     else Ok tt)
  /\ (stderr_garbled b text (files w) = false ->
      played b text w
      \/ In (EvPrint (audio_line text)) (emitted w (fst (speak b text w)))).
Proof.
  intros He. destruct (speak_shape text w He) as (fs & evs & E & H).
  rewrite E. cbn [fst snd]. split; [reflexivity|].
  rewrite (emitted_log w (World fs (log w ++ evs)) evs eq_refl).
  intros G. destruct H as [H|H]; [congruence | exact H].
Qed.

(** X11: when the synthesis and the playing succeed and the name of the
    temporary file is a new one, [speak] leaves the files as they were: the
    file it creates is the file it deletes; it has run the synthesis tool
    and then the player, and printed nothing. *)
Theorem speak_success_restores_files text w p :
  mkstemp b (files w) = Some p ->
  ~ In p (files w) ->
  encodable text = true ->
  piper b text p = Exited 0 ->
  afplay b p = Exited 0 ->
  speak b text w
  = (World (files w) (log w ++ [EvPiper text p; EvPlay p]), Ok tt).
Proof.
  intros Hm Hn He Hp Ha.
  rewrite (speak_success_unlinks b text w p Hm He Hp Ha).
  now rewrite (filter_absent p (files w) Hn).
Qed.

(** X12: when the synthesis tool does not end with return code 0, the
    player is not started. *)
Theorem speak_no_play_after_failed_synthesis text w :
  (forall p, mkstemp b (files w) = Some p -> piper b text p <> Exited 0) ->
  forall f, ~ In (EvPlay f) (emitted w (fst (speak b text w))).
Proof.
  intros Hf f.
  assert (S : exists fs evs r,
             speak b text w = (World fs (log w ++ evs), r)
             /\ ~ In (EvPlay f) evs).
  { unfold speak, try_except, speak_try, bind, named_temporary_file,
      subprocess_run.
    destruct (mkstemp b (files w)) as [p|] eqn:Hm.
    - specialize (Hf p eq_refl).
      destruct (encodable text); cbn [ret raise emit files log].
      + destruct (piper b text p) as [rc| |]; cbn.
        * destruct (rc =? 0) eqn:Erc; cbn.
          -- apply Z.eqb_eq in Erc. subst. congruence.
          -- destruct (piper_stderr b text p); cbn; log_normal;
               eexists _, _, _; (split; [reflexivity|]);
               cbn [In app]; intuition discriminate.
        * log_normal. eexists _, _, _. split; [reflexivity|].
          cbn [In app]. intuition discriminate.
        * log_normal. eexists _, _, _. split; [reflexivity|].
          cbn [In app]. intuition discriminate.
      + cbn. exists (p :: files w), [], (Raise UnicodeEncodeError).
        rewrite app_nil_r. split; [reflexivity|]. intros [].
    - cbn. log_normal. eexists _, _, _. split; [reflexivity|].
      cbn [In app]. intuition discriminate. }
  destruct S as (fs & evs & r & E & H). rewrite E. cbn [fst].
  now rewrite (emitted_log w (World fs (log w ++ evs)) evs eq_refl).
Qed.

(** X13: a text with a surrogate code point cannot be encoded for the
    synthesis tool: the [UnicodeEncodeError] is none of the exceptions that
    [speak] handles, so it leaves [speak]; nothing has been run or printed
    and the temporary file is still there. *)
Theorem speak_surrogate_raises text w p :
  mkstemp b (files w) = Some p ->
  encodable text = false ->
  speak b text w = (World (p :: files w) (log w), Raise UnicodeEncodeError).
Proof.
  intros Hm He.
  unfold speak, try_except, speak_try, bind, named_temporary_file.
  rewrite Hm, He. reflexivity.
Qed.
End SpeakMore.

(** X10 when the synthesis tool runs past the timeout, and when it exits
    with code 1 and a standard error that cannot be decoded. *)
Lemma speak_falls_back_to_text_witness :
  snd (speak (tts_ends TimedOut (Exited 0)) (s2u "Hola") empty_world) = Ok tt
  /\ snd (speak tts_garbled (s2u "Hola") empty_world)
     = Raise UnicodeDecodeError.
Proof.
  split.
  - exact (proj1 (speak_falls_back_to_text (tts_ends TimedOut (Exited 0))
                    (s2u "Hola") empty_world eq_refl)).
  - exact (proj1 (speak_falls_back_to_text tts_garbled (s2u "Hola")
                    empty_world eq_refl)).
Defined.

(** X11 from an empty directory. *)
Lemma speak_success_restores_files_witness :
  speak (tts_ends (Exited 0) (Exited 0)) (s2u "Hola") empty_world
  = (World [] [EvPiper (s2u "Hola") 7%nat; EvPlay 7%nat], Ok tt).
Proof.
  apply (speak_success_restores_files (tts_ends (Exited 0) (Exited 0))
           (s2u "Hola") empty_world 7%nat);
    [reflexivity | intros [] | reflexivity | reflexivity | reflexivity].
Defined.

(** X12 when the synthesis tool exits with code 1. *)
Lemma speak_no_play_after_failed_synthesis_witness :
  ~ In (EvPlay 7%nat)
      (emitted empty_world
         (fst (speak (tts_ends (Exited 1) (Exited 0)) (s2u "Hola")
                 empty_world)))
  /\ snd (speak (tts_ends (Exited 1) (Exited 0)) (s2u "Hola") empty_world)
     = Ok tt.
Proof.
  split; [|reflexivity].
  apply (speak_no_play_after_failed_synthesis (tts_ends (Exited 1) (Exited 0))
           (s2u "Hola") empty_world).
  intros p _. discriminate.
Defined.

(** X13 on a text that holds the lone surrogate U+D83D. *)
Lemma speak_surrogate_raises_witness :
  speak (tts_ends (Exited 0) (Exited 0)) [72; 0xD83D] empty_world
  = (World [7%nat] [], Raise UnicodeEncodeError).
Proof.
  apply (speak_surrogate_raises (tts_ends (Exited 0) (Exited 0)) [72; 0xD83D]
           empty_world 7%nat); reflexivity.
Defined.

(* ================================================================= *)
(** ** [generate_response] and the turns of the loop *)

Lemma not_emoji_encodable r : forallb not_emoji r = true -> encodable r = true.
Proof.
  unfold encodable. intros H. apply negb_true_iff.
  induction r as [|c r IH]; auto. simpl in H.
  apply andb_true_iff in H as [Hc Hr]. cbn [existsb].
  rewrite (IH Hr), orb_false_r.
  destruct (in_range 55296 57343 c) eqn:E; auto.
  assert (X : is_emoji c = true).
  { apply enclosed_is_emoji. unfold enclosed, in_range in *.
    apply andb_true_iff in E as [E1 E2]. apply Z.leb_le in E1, E2.
    apply andb_true_iff. split; apply Z.leb_le; lia. }
  unfold not_emoji in Hc. rewrite X in Hc. discriminate.
Qed.

Lemma reply_of_cleaned answer : cleaned (reply_of answer).
Proof.
  destruct answer as [c|e]; [apply sanitize_cleaned | split; reflexivity].
Qed.

Lemma reply_of_encodable answer : encodable (reply_of answer) = true.
Proof. apply not_emoji_encodable, (cleaned_emoji _ (reply_of_cleaned answer)). Qed.

Section Turns.
Context {audio mel : Type}.
Variable lower : pystr -> pystr.
Variable SYSTEM_PROMPT : pystr.
Variable b : backends audio mel.

Lemma generate_response_eq text history w :
  generate_response SYSTEM_PROMPT b text history w
  = (World (files w)
       (log w
        ++ EvChat (chat_messages SYSTEM_PROMPT history text)
           :: match ollama_chat b (chat_messages SYSTEM_PROMPT history text) with
              | Ok _ => []
              | Raise e => [EvPrintError (s2u "Error generando respuesta") e]
              end),
     Ok (reply_of (ollama_chat b (chat_messages SYSTEM_PROMPT history text)))).
Proof.
  unfold generate_response, chat_messages, bind, emit.
  destruct (ollama_chat b _) as [c|e]; cbn; log_normal; reflexivity.
Qed.

(** X14: [generate_response] never raises, whatever the chat backend
    does: it sends one request, made of the system prompt, the history and
    the new user message in this order, and returns a text that is not
    empty, holds no asterisk and no code point of the emoji ranges, and can
    be encoded for the synthesis tool; the temporary files are untouched. *)
Theorem generate_response_never_fails text history w :
  exists reply errors,
    generate_response SYSTEM_PROMPT b text history w
    = (World (files w)
         (log w
          ++ EvChat ([Msg (s2u "system") SYSTEM_PROMPT] ++ history
                     ++ [Msg (s2u "user") text])
             :: errors),
       Ok reply)
    /\ (errors = []
        \/ exists e, errors = [EvPrintError (s2u "Error generando respuesta") e])
    /\ reply <> []
    /\ ~ In asterisk reply
    /\ forallb not_emoji reply = true
    /\ encodable reply = true.
Proof.
  rewrite generate_response_eq.
  set (answer := ollama_chat b (chat_messages SYSTEM_PROMPT history text)).
  destruct (reply_of_cleaned answer) as [Ha He _ _].
  exists (reply_of answer). eexists. split; [reflexivity|].
  split; [|split; [|split; [|split]]].
  - destruct answer as [c|e]; [now left | right; now exists e].
  - destruct answer as [c|e]; [|discriminate].
    cbn [reply_of]. intros E. pose proof (sanitize_nonempty c) as N.
    rewrite E in N. discriminate.
  - intros Hin. rewrite forallb_forall in Ha. apply Ha in Hin.
    unfold not_asterisk in Hin. rewrite Z.eqb_refl in Hin. discriminate.
  - exact He.
  - apply reply_of_encodable.
Qed.
End Turns.

Lemma filter_chat_none (P : event -> bool) l :
  (forall ev, P ev = true -> is_chat_event ev = false) ->
  forallb P l = true -> filter is_chat_event l = [].
Proof.
  intros Hp H. induction l as [|ev l IH]; auto.
  simpl in H. apply andb_true_iff in H as [He Hl].
  cbn [filter]. rewrite (Hp ev He). auto.
Qed.

Lemma filter_chat_stt l :
  forallb is_stt_event l = true -> filter is_chat_event l = [].
Proof. apply filter_chat_none. intros []; try discriminate; reflexivity. Qed.

Lemma filter_chat_tts l :
  forallb is_tts_event l = true -> filter is_chat_event l = [].
Proof. apply filter_chat_none. intros []; try discriminate; reflexivity. Qed.

Section TurnsOfLoop.
Context {audio mel : Type}.
Variable lower : pystr -> pystr.
Variable SYSTEM_PROMPT : pystr.
Variable b : backends audio mel.

Lemma loop_body_exit history typed recorded w :
  str_eqb (lower (strip typed)) (s2u "salir") = true ->
  exists fs tts,
    forallb is_tts_event tts = true
    /\ loop_body lower SYSTEM_PROMPT b history (Ok typed) recorded w
       = (World fs (log w ++ EvPrint (osito_line bye) :: tts),
          if stderr_garbled b bye (files w)
          then Raise UnicodeDecodeError
          else Ok Break).
Proof.
  intros Hs. unfold loop_body. rewrite (bind_ok _ _ w w typed eq_refl).
  cbv beta zeta. rewrite Hs.
  rewrite (bind_ok _ _ w (World (files w) (log w ++ [EvPrint (osito_line bye)]))
             tt eq_refl).
  destruct (speak_result b bye
              (World (files w) (log w ++ [EvPrint (osito_line bye)])) eq_refl)
    as (fs & tts & E & Ht).
  unfold speak_outcome in E. cbn [files log] in E.
  exists fs, tts. split; [exact Ht|].
  destruct (stderr_garbled b bye (files w)).
  - rewrite (bind_raise _ _ _ _ _ E). now rewrite <- app_assoc.
  - rewrite (bind_ok _ _ _ _ tt E). unfold ret. now rewrite <- app_assoc.
Qed.

(** X15: when the line that the user types is "salir", in any case and
    with any whitespace around it, the pass prints the farewell and gives
    it to [speak]: it does not look at the recording, nothing is detected
    or transcribed and no request goes to the chat backend. The pass then
    breaks the loop, unless [speak] lets through the [UnicodeDecodeError]
    of a standard error of the failed synthesis tool that cannot be
    decoded. *)
Theorem exit_command_breaks history typed recorded w :
  str_eqb (lower (strip typed)) (s2u "salir") = true ->
  snd (loop_body lower SYSTEM_PROMPT b history (Ok typed) recorded w)
  = (if stderr_garbled b bye (files w)
     then Raise UnicodeDecodeError
     else Ok Break)
  /\ exists tts,
       emitted w
         (fst (loop_body lower SYSTEM_PROMPT b history (Ok typed) recorded w))
       = EvPrint (osito_line bye) :: tts
       /\ forallb is_tts_event tts = true.
Proof.
  intros Hs.
  destruct (loop_body_exit history typed recorded w Hs) as (fs & tts & Ht & E).
  rewrite E. cbn [fst snd]. split; [reflexivity|]. exists tts.
  split; [|exact Ht]. now apply emitted_log.
Qed.

Lemma allowed_not_status lang :
  allowed_language lang = true ->
  str_eqb lang (s2u "unsupported_language") = false.
Proof.
  unfold allowed_language. intros H.
  apply orb_true_iff in H as [H|H]; apply str_eqb_eq in H; subst; reflexivity.
Qed.

(** The whole of a turn in which a text is recognized. *)
Lemma loop_body_recognized history typed audio_data text lang w :
  str_eqb (lower (strip typed)) (s2u "salir") = false ->
  snd (transcribe lower (whisper_model b) audio_data w)
  = Ok (Some text, lang) ->
  exists fs evs,
    loop_body lower SYSTEM_PROMPT b history (Ok typed) (Ok audio_data) w
    = (World fs (log w ++ evs),
       if stderr_garbled b
            (reply_of (ollama_chat b (chat_messages SYSTEM_PROMPT history text)))
            (files w)
       then Raise UnicodeDecodeError
       else Ok (Continue
                  (push_turn history text
                     (reply_of
                        (ollama_chat b
                           (chat_messages SYSTEM_PROMPT history text))))))
    /\ filter is_chat_event evs
       = [EvChat (chat_messages SYSTEM_PROMPT history text)].
Proof.
  intros Hs Ht.
  pose proof (recognized_allowed lower _ _ _ _ _ Ht) as Ha.
  apply allowed_not_status in Ha.
  destruct (transcribe_logs lower (whisper_model b) audio_data)
    as (stt & r & Hstt & Hr).
  rewrite Hr in Ht. cbn [snd] in Ht. subst r.
  set (reply := reply_of (ollama_chat b
                            (chat_messages SYSTEM_PROMPT history text))).
  unfold loop_body. rewrite (bind_ok _ _ w w typed eq_refl).
  cbv beta zeta. rewrite Hs.
  rewrite (bind_ok _ _ w w audio_data eq_refl).
  rewrite (bind_ok _ _ w _ tt eq_refl).
  rewrite (bind_ok _ _ _ _ _ (Hr _)). cbn [fst snd]. rewrite Ha.
  rewrite (bind_ok _ _ _ _ tt eq_refl).
  rewrite (bind_ok _ _ _ _ _ (generate_response_eq SYSTEM_PROMPT b _ _ _)).
  fold reply.
  rewrite (bind_ok _ _ _ _ tt eq_refl). cbn [files log].
  apply filter_chat_stt in Hstt.
  match goal with
  | |- context [bind (speak b reply) _ ?w1] =>
      destruct (speak_result b reply w1 (reply_of_encodable _))
        as (fs & tts & E & Htts);
      unfold speak_outcome in E; cbn [files] in E;
      apply filter_chat_tts in Htts;
      destruct (stderr_garbled b reply (files w));
      [rewrite (bind_raise _ _ w1 _ _ E)
      |rewrite (bind_ok _ _ w1 _ tt E);
       rewrite (bind_ok _ _ _ _ tt eq_refl); unfold ret]
  end;
    log_normal; eexists _, _; (split; [reflexivity|]);
    destruct (ollama_chat b (chat_messages SYSTEM_PROMPT history text));
    repeat first
      [ rewrite filter_app
      | rewrite Hstt
      | rewrite Htts
      | progress cbn [filter is_chat_event app] ];
    reflexivity.
Qed.
End TurnsOfLoop.

Section LoopProperties.
Context {audio mel : Type}.
Variable lower : pystr -> pystr.
Variable SYSTEM_PROMPT : pystr.
Variable b : backends audio mel.

(** X16: when [transcribe] recognizes a text, the pass sends exactly one
    chat request, made of the system prompt, the history and the text, and
    gives the reply to [speak]; the reply is the sanitized answer of the
    backend, or the fixed sentence "Hola! Que quieres decirme?" when the
    backend fails. The pass then goes on with the history on which the
    text and the reply have been pushed, unless [speak] lets through the
    [UnicodeDecodeError] of a standard error of the failed synthesis tool
    that cannot be decoded: then nothing is pushed. *)
Theorem recognized_turn_pushes history typed audio_data text lang w :
  str_eqb (lower (strip typed)) (s2u "salir") = false ->
  snd (transcribe lower (whisper_model b) audio_data w)
  = Ok (Some text, lang) ->
  snd (loop_body lower SYSTEM_PROMPT b history (Ok typed) (Ok audio_data) w)
  = (if stderr_garbled b
          (reply_of (ollama_chat b (chat_messages SYSTEM_PROMPT history text)))
          (files w)
     then Raise UnicodeDecodeError
     else Ok (Continue
                (push_turn history text
                   (reply_of
                      (ollama_chat b
                         (chat_messages SYSTEM_PROMPT history text))))))
  /\ filter is_chat_event
       (emitted w
          (fst (loop_body lower SYSTEM_PROMPT b history (Ok typed)
                  (Ok audio_data) w)))
     = [EvChat ([Msg (s2u "system") SYSTEM_PROMPT] ++ history
                ++ [Msg (s2u "user") text])]
  /\ reply_of (ollama_chat b (chat_messages SYSTEM_PROMPT history text))
     = match ollama_chat b
               ([Msg (s2u "system") SYSTEM_PROMPT] ++ history
                ++ [Msg (s2u "user") text]) with
       | Ok answer => sanitize answer
       | Raise _ => s2u "Hola! Que quieres decirme?"
       end.
Proof.
  intros Hs Ht.
  destruct (loop_body_recognized lower SYSTEM_PROMPT b history typed
              audio_data text lang w Hs Ht) as (fs & evs & E & Hf).
  rewrite E. cbn [fst snd]. split; [reflexivity|].
  rewrite (emitted_log w (World fs (log w ++ evs)) evs eq_refl).
  split; [exact Hf | reflexivity].
Qed.

(** X17: with a console that takes every print, a pass of the loop raises
    only what [input()] raised, what [record_audio] raised, what
    [transcribe] let through, which is no [RuntimeError], [ValueError] or
    [KeyError], or the [UnicodeDecodeError] that [speak] lets through when
    the synthesis tool fails with a standard error that cannot be decoded.
    A failure of the chat backend, a timeout or a return code other than 0
    never makes a pass fail. *)
Theorem loop_body_raises_only history typed recorded e w :
  snd (loop_body lower SYSTEM_PROMPT b history typed recorded w) = Raise e ->
  typed = Raise e
  \/ recorded = Raise e
  \/ (exists audio_data,
        recorded = Ok audio_data
        /\ snd (transcribe lower (whisper_model b) audio_data w) = Raise e
        /\ transcribe_catches e = false)
  \/ (e = UnicodeDecodeError
      /\ exists text, stderr_garbled b text (files w) = true).
Proof.
  intros H.
  destruct typed as [line|e0].
  2:{ left. unfold loop_body in H.
      rewrite (bind_raise _ _ w w e0 eq_refl) in H. cbn [snd] in H.
      now inversion H. }
  right.
  destruct (str_eqb (lower (strip line)) (s2u "salir")) eqn:Hs.
  { destruct (loop_body_exit lower SYSTEM_PROMPT b history line recorded w Hs)
      as (fs & tts & _ & E).
    rewrite E in H. cbn [snd] in H.
    destruct (stderr_garbled b bye (files w)) eqn:G; [|discriminate].
    inversion H; subst. right. right. split; [reflexivity|]. now exists bye. }
  destruct recorded as [a|e'].
  - right.
    destruct (snd (transcribe lower (whisper_model b) a w))
      as [[[text|] status]|e'] eqn:Ht.
    + destruct (loop_body_recognized lower SYSTEM_PROMPT b history line a
                  text status w Hs Ht) as (fs & evs & E & _).
      rewrite E in H. cbn [snd] in H.
      match type of H with
      | context [stderr_garbled ?x ?y ?z] =>
          destruct (stderr_garbled x y z) eqn:G; [|discriminate];
          inversion H; subst; right; split; [reflexivity|]; now exists y
      end.
    + destruct (loop_body_rejected lower SYSTEM_PROMPT b history line a
                  status w Hs Ht) as (fs & stt & tts & _ & _ & _ & E).
      rewrite E in H. cbn [snd] in H.
      destruct (stderr_garbled b (fallback_msg status) (files w)) eqn:G;
        [|discriminate].
      inversion H; subst. right. split; [reflexivity|].
      now exists (fallback_msg status).
    + left. exists a. split; [reflexivity|].
      destruct (transcribe_logs lower (whisper_model b) a)
        as (stt & r & _ & Hr).
      rewrite Hr in Ht. cbn [snd] in Ht. subst r.
      unfold loop_body in H. rewrite (bind_ok _ _ w w line eq_refl) in H.
      cbv beta zeta in H. rewrite Hs in H.
      rewrite (bind_ok _ _ w w a eq_refl) in H.
      rewrite (bind_ok _ _ w _ tt eq_refl) in H.
      rewrite (bind_raise _ _ _ _ _ (Hr _)) in H. cbn [snd] in H.
      inversion H; subst.
      split; [now rewrite Hr|].
      apply (raised_uncaught lower (whisper_model b) a e w).
      now rewrite Hr.
  - left. unfold loop_body in H. rewrite (bind_ok _ _ w w line eq_refl) in H.
    cbv beta zeta in H. rewrite Hs in H.
    rewrite (bind_raise _ _ w w e' eq_refl) in H. cbn [snd] in H.
    now inversion H.
Qed.

(** The history of the loop is the history after a list of exchanges that
    grows by at most one exchange in a turn. *)
Lemma run_turns_exchanges turns : forall exchanges w w' h,
  run_turns lower SYSTEM_PROMPT b (history_after exchanges []) turns w
  = (w', Ok h) ->
  exists exchanges',
    h = history_after exchanges' []
    /\ (List.length exchanges'
        <= List.length exchanges + List.length turns)%nat.
Proof.
  induction turns as [|[typed recorded] turns IH]; intros xs w w' h.
  - cbn. unfold ret. intros H. inversion H. subst. exists xs.
    split; [reflexivity|lia].
  - cbn [run_turns]. unfold bind at 1.
    destruct (loop_body lower SYSTEM_PROMPT b (history_after xs []) typed
                recorded w) as [w1 [[|h1]|e]] eqn:E; try discriminate.
    + unfold ret. intros H. inversion H. subst. exists xs.
      split; [reflexivity|cbn [List.length]; lia].
    + destruct (loop_body_continue _ _ _ _ _ _ _ _ _ E) as [->|(t & r & ->)].
      * intros H. destruct (IH xs _ _ _ H) as (xs' & Hh & Hl).
        exists xs'. split; [exact Hh|cbn [List.length]; lia].
      * rewrite history_after_push. intros H.
        destruct (IH _ _ _ _ H) as (xs' & Hh & Hl).
        exists xs'. split; [exact Hh|].
        rewrite length_app in Hl. cbn [List.length] in *. lia.
Qed.

(** X18: when [main_loop] returns, its history is made of the last
    [MAX_HISTORY_TURNS] = 4 exchanges of a list that holds at most one
    exchange for each turn of the loop, each a user message followed by an
    assistant message; it holds at most 8 messages, whatever the user typed
    and the backends did. The greeting is not part of it: after no turn the
    history is empty. *)
Theorem main_loop_history turns w w' h :
  main_loop lower SYSTEM_PROMPT b turns w = (w', Ok h) ->
  (exists exchanges,
     h = flat_map exchange_messages (last_n MAX_HISTORY_TURNS exchanges)
     /\ (List.length exchanges <= List.length turns)%nat)
  /\ (List.length h <= 8)%nat
  /\ (turns = [] -> h = []).
Proof.
  unfold main_loop, bind.
  destruct (emit (EvPrint (osito_line greeting)) w) as [w1 [[]|e]];
    try discriminate.
  destruct (speak b greeting w1) as [w2 [[]|e]]; try discriminate.
  intros H. destruct (run_turns_exchanges turns [] _ _ _ H) as (xs & -> & L).
  cbn [List.length Nat.add] in L.
  assert (E0 : turns = [] -> history_after xs [] = []).
  { intros ->. cbn [List.length] in L. destruct xs; [reflexivity|].
    cbn [List.length] in L. lia. }
  split; [|split].
  - exists xs. split; [apply history_after_exchanges | exact L].
  - apply (history_after_length xs).
  - exact E0.
Qed.
End LoopProperties.

(** X15 on the line " SALIR ", with a microphone that cannot be opened. *)
Lemma exit_command_breaks_witness :
  snd (loop_body ascii_lower [] (tts_ends (Exited 0) (Exited 0)) ana_history
         (Ok (s2u " SALIR ")) (Raise OSError) empty_world)
  = Ok Break.
Proof.
  exact (proj1 (exit_command_breaks ascii_lower []
                  (tts_ends (Exited 0) (Exited 0)) ana_history
                  (s2u " SALIR ") (Raise OSError) empty_world eq_refl)).
Defined.

(** X16 on "Hola, me llamo Ana" heard in Spanish. *)
Lemma recognized_turn_pushes_witness :
  snd (loop_body ascii_lower []
         (backends_of (hears (s2u "es") (s2u " Hola, me llamo Ana "))
            (Exited 0) (Exited 0))
         [] (Ok []) (Ok tt) empty_world)
  = Ok (Continue
          [Msg (s2u "user") (s2u "Hola, me llamo Ana");
           Msg (s2u "assistant") (s2u "Hola! Te gusta el azul?")]).
Proof.
  pose proof (proj1 (recognized_turn_pushes ascii_lower []
                       (backends_of
                          (hears (s2u "es") (s2u " Hola, me llamo Ana "))
                          (Exited 0) (Exited 0))
                       [] [] tt (s2u "Hola, me llamo Ana") (s2u "es")
                       empty_world eq_refl eq_refl)) as E.
  vm_compute in E. vm_compute. exact E.
Defined.

(** X17 on a standard input that is closed. *)
Lemma loop_body_raises_only_witness :
  @Raise pystr EOFError = Raise EOFError
  \/ @Raise unit OSError = Raise EOFError
  \/ (exists audio_data : unit,
        Raise OSError = Ok audio_data
        /\ snd (transcribe ascii_lower
                  (whisper_model (tts_ends (Exited 0) (Exited 0)))
                  audio_data empty_world) = Raise EOFError
        /\ transcribe_catches EOFError = false)
  \/ (EOFError = UnicodeDecodeError
      /\ exists text,
           stderr_garbled (tts_ends (Exited 0) (Exited 0)) text
             (files empty_world) = true).
Proof.
  exact (loop_body_raises_only ascii_lower [] (tts_ends (Exited 0) (Exited 0))
           ana_history (Raise EOFError) (Raise OSError) EOFError empty_world
           eq_refl).
Defined.

(** X18 on a loop of one turn, in which "Hola" is recognized. *)
Lemma main_loop_history_witness :
  (exists exchanges,
     [Msg (s2u "user") (s2u "Hola");
      Msg (s2u "assistant") (s2u "Hola! Te gusta el azul?")]
     = flat_map exchange_messages (last_n MAX_HISTORY_TURNS exchanges)
     /\ (List.length exchanges
         <= List.length [(@Ok pystr [], @Ok unit tt)])%nat)
  /\ (List.length
        [Msg (s2u "user") (s2u "Hola");
         Msg (s2u "assistant") (s2u "Hola! Te gusta el azul?")] <= 8)%nat
  /\ ([(@Ok pystr [], @Ok unit tt)] = [] ->
      [Msg (s2u "user") (s2u "Hola");
       Msg (s2u "assistant") (s2u "Hola! Te gusta el azul?")] = []).
Proof.
  apply (main_loop_history ascii_lower [] (tts_ends (Exited 0) (Exited 0))
           [(Ok [], Ok tt)] empty_world
           (fst (main_loop ascii_lower [] (tts_ends (Exited 0) (Exited 0))
                   [(Ok [], Ok tt)] empty_world))).
  vm_compute. reflexivity.
Defined.

(* ================================================================= *)
(** ** The requests to the chat backend *)

Section Emits.
Variable P : event -> Prop.

Lemma emits_lift {A} (r : result A) : emits P (lift r).
Proof. intros w. exists []. cbn. now rewrite app_nil_r. Qed.

Lemma emits_ret {A} (a : A) : emits P (ret a).
Proof. apply (emits_lift (Ok a)). Qed.

Lemma emits_raise {A} (e : exn) : emits P (@raise A e).
Proof. apply (emits_lift (Raise e)). Qed.

Lemma emits_emit ev : P ev -> emits P (emit ev).
Proof. intros H w. exists [ev]. cbn. auto. Qed.

(** The continuation may rely on what the first part establishes of its
    result. *)
Lemma emits_bind_inv {A B} (Inv : A -> Prop) (m : M A) (k : A -> M B) :
  emits P m ->
  (forall w w1 a, m w = (w1, Ok a) -> Inv a) ->
  (forall a, Inv a -> emits P (k a)) ->
  emits P (bind m k).
Proof.
  intros Hm Hi Hk w. destruct (Hm w) as (evs & E & F). unfold bind.
  destruct (m w) as [w1 [a|e]] eqn:Em; cbn [fst] in E.
  - destruct (Hk a (Hi w w1 a Em) w1) as (evs' & E' & F').
    exists (evs ++ evs'). rewrite E', E, app_assoc. split; auto.
    apply Forall_app. auto.
  - exists evs. auto.
Qed.

Lemma emits_bind {A B} (m : M A) (k : A -> M B) :
  emits P m -> (forall a, emits P (k a)) -> emits P (bind m k).
Proof.
  intros Hm Hk. apply (emits_bind_inv (fun _ => True)); auto.
Qed.

Lemma emits_try {A} (m : M A) (h : exn -> M A) :
  emits P m -> (forall e, emits P (h e)) -> emits P (try_except m h).
Proof.
  intros Hm Hh w. destruct (Hm w) as (evs & E & F). unfold try_except.
  destruct (m w) as [w1 [a|e]] eqn:Em; cbn [fst] in E.
  - exists evs. auto.
  - destruct (Hh e w1) as (evs' & E' & F').
    exists (evs ++ evs'). rewrite E', E, app_assoc. split; auto.
    apply Forall_app. auto.
Qed.

Lemma emits_logs_only {A} Q (m : M A) :
  logs_only Q m -> (forall ev, Q ev = true -> P ev) -> emits P m.
Proof.
  intros (evs & r & Hq & Hm) Himp w. exists evs. rewrite Hm. cbn.
  split; auto. apply Forall_forall. intros ev Hin.
  rewrite forallb_forall in Hq. auto.
Qed.

Lemma emits_silent {A} (m : M A) :
  (forall w, log (fst (m w)) = log w) -> emits P m.
Proof. intros H w. exists []. rewrite H, app_nil_r. auto. Qed.
End Emits.

Ltac emits_step :=
  first
    [ apply emits_ret
    | apply emits_raise
    | apply emits_lift
    | apply emits_emit; exact I
    | apply emits_bind; [|intros ?]
    | apply emits_try; [|intros ?]
    | match goal with
      | |- emits _ (if ?c then _ else _) => destruct c
      | |- emits _ (match ?c with _ => _ end) => destruct c
      end
    | progress cbv zeta ].

Section ChatRequests.
Context {audio mel : Type}.
Variable lower : pystr -> pystr.
Variable SYSTEM_PROMPT : pystr.
Variable b : backends audio mel.

Let P := chat_request_ok SYSTEM_PROMPT.

Lemma speak_emits text : emits P (speak b text).
Proof.
  unfold speak, speak_try, subprocess_run.
  assert (T : emits P (named_temporary_file b)).
  { apply emits_silent. intros w. unfold named_temporary_file.
    destruct (mkstemp b (files w)); reflexivity. }
  assert (U : forall p, emits P (unlink p)).
  { intros p. apply emits_silent. intros w. unfold unlink.
    destruct (existsb (Nat.eqb p) (files w)); reflexivity. }
  apply emits_try; [|intros e; repeat emits_step].
  apply emits_bind; [exact T|intros p].
  repeat first [apply U | emits_step].
Qed.

Lemma transcribe_emits a : emits P (transcribe lower (whisper_model b) a).
Proof.
  apply (emits_logs_only P is_stt_event); [apply transcribe_logs|].
  intros [] H; try discriminate; exact I.
Qed.

Lemma loop_body_emits exchanges typed recorded :
  emits P (loop_body lower SYSTEM_PROMPT b (history_after exchanges [])
             typed recorded).
Proof.
  unfold loop_body, generate_response.
  repeat first
    [ apply speak_emits
    | apply transcribe_emits
    | apply emits_emit; exact I
    | apply emits_emit; eexists _, _; reflexivity
    | emits_step ].
Qed.

Lemma run_turns_emits turns : forall exchanges,
  emits P (run_turns lower SYSTEM_PROMPT b (history_after exchanges []) turns).
Proof.
  induction turns as [|[typed recorded] turns IH]; intros xs.
  - apply emits_ret.
  - cbn [run_turns].
    apply (emits_bind_inv P
             (fun f => match f with
                       | Break => True
                       | Continue h => exists xs', h = history_after xs' []
                       end)).
    + apply loop_body_emits.
    + intros w w1 [|h] E; [exact I|].
      destruct (loop_body_continue _ _ _ _ _ _ _ _ _ E) as [->|(t & r & ->)].
      * now exists xs.
      * exists (xs ++ [(t, r)]). apply history_after_push.
    + intros [|h] H; [apply emits_ret|].
      destruct H as [xs' ->]. apply IH.
Qed.

Lemma main_loop_emits turns : emits P (main_loop lower SYSTEM_PROMPT b turns).
Proof.
  unfold main_loop.
  apply emits_bind; [apply emits_emit; exact I|intros _].
  apply emits_bind; [apply speak_emits|intros _].
  apply (run_turns_emits turns []).
Qed.

(** X19: every request that [main_loop] sends to the chat backend is the
    system prompt, then the messages of at most the last
    [MAX_HISTORY_TURNS] = 4 exchanges, then one user message: at most 10
    messages, the system prompt once and first, and never the greeting. *)
Theorem chat_requests_bounded turns w messages :
  In (EvChat messages)
    (emitted w (fst (main_loop lower SYSTEM_PROMPT b turns w))) ->
  (exists exchanges user_text,
     messages
     = [Msg (s2u "system") SYSTEM_PROMPT]
       ++ flat_map exchange_messages (last_n MAX_HISTORY_TURNS exchanges)
       ++ [Msg (s2u "user") user_text])
  /\ (List.length messages <= 10)%nat.
Proof.
  destruct (main_loop_emits turns w) as (evs & E & F).
  rewrite (emitted_log _ _ _ E). intros Hin.
  rewrite Forall_forall in F. apply F in Hin.
  destruct Hin as (xs & text & ->). unfold chat_messages. split.
  - exists xs, text. now rewrite history_after_exchanges.
  - rewrite !length_app. cbn [List.length].
    pose proof (history_after_length xs) as L.
    unfold MAX_HISTORY_TURNS in L. lia.
Qed.
End ChatRequests.

(** X19 on a loop of one turn, in which "Hola" is recognized. *)
Lemma chat_requests_bounded_witness :
  (exists exchanges user_text,
     [Msg (s2u "system") (s2u "Eres Osito."); Msg (s2u "user") (s2u "Hola")]
     = [Msg (s2u "system") (s2u "Eres Osito.")]
       ++ flat_map exchange_messages (last_n MAX_HISTORY_TURNS exchanges)
       ++ [Msg (s2u "user") user_text])
  /\ (List.length
        [Msg (s2u "system") (s2u "Eres Osito."); Msg (s2u "user") (s2u "Hola")]
      <= 10)%nat.
Proof.
  apply (chat_requests_bounded ascii_lower (s2u "Eres Osito.")
           (tts_ends (Exited 0) (Exited 0)) [(Ok [], Ok tt)] empty_world).
  vm_compute. tauto.
Defined.


(* ================================================================= *)
(** ** [record_audio] *)

Lemma num_chunks_93 : num_chunks = 93%nat.
Proof. vm_compute. reflexivity. Qed.

Lemma read_frames_ok mic size : forall n i frames,
  (forall j, (i <= j < i + n)%nat ->
     exists data, stream_read mic j = Ok data /\ List.length data = size) ->
  exists more,
    read_frames mic i n frames = Ok (frames ++ more)
    /\ List.length (List.concat more) = (n * size)%nat.
Proof.
  induction n as [|n IH]; intros i frames H.
  - exists []. cbn. now rewrite app_nil_r.
  - destruct (H i) as (data & Hd & Hl); [lia|].
    cbn [read_frames]. rewrite Hd.
    destruct (IH (S i) (frames ++ [data])) as (more & E & L).
    { intros j Hj. apply H. lia. }
    exists (data :: more). rewrite E, <- app_assoc. split; [reflexivity|].
    cbn [List.concat]. rewrite length_app, L, Hl. lia.
Qed.

Lemma read_frames_raise mic e k : forall n i frames,
  (i <= k < i + n)%nat ->
  (forall j, (i <= j < k)%nat -> exists data, stream_read mic j = Ok data) ->
  stream_read mic k = Raise e ->
  read_frames mic i n frames = Raise e.
Proof.
  induction n as [|n IH]; intros i frames Hk Hok Hr; [lia|].
  cbn [read_frames]. destruct (Nat.eq_dec i k) as [->|Hne].
  - now rewrite Hr.
  - destruct (Hok i) as (data & Hd); [lia|]. rewrite Hd.
    apply IH; [lia| |exact Hr]. intros j Hj. apply Hok. lia.
Qed.

(** The decoding, two bytes at a time. *)
Lemma frombuffer_int16_pairs (P : list Z -> Prop) :
  P [] ->
  (forall b, P [b]) ->
  (forall lo hi rest, P rest -> P (lo :: hi :: rest)) ->
  forall buffer, P buffer.
Proof.
  intros H0 H1 H2.
  assert (A : forall buffer, P buffer /\ forall b, P (b :: buffer)).
  { induction buffer as [|x buffer [IH1 IH2]]; split; auto. }
  intros buffer. apply A.
Qed.

Lemma frombuffer_int16_length buffer : forall k,
  List.length buffer = (2 * k)%nat ->
  exists samples,
    frombuffer_int16 buffer = Ok samples /\ List.length samples = k.
Proof.
  induction buffer as [|b|lo hi rest IH] using frombuffer_int16_pairs;
    intros k Hk.
  - exists []. cbn in *. split; [reflexivity|lia].
  - cbn in Hk. lia.
  - destruct k as [|k]; [cbn in Hk; lia|].
    destruct (IH k) as (samples & E & L); [cbn in Hk; lia|].
    exists (int16_of lo hi :: samples). cbn [frombuffer_int16].
    rewrite E. cbn. auto.
Qed.

(** X20: the loop reads [int(16000 / 1024 * 6)] = 93 chunks; when the
    device opens and every read gives a full chunk of 1024 samples of two
    bytes, [record_audio] returns 95232 samples, which is 768 fewer than
    the 96000 samples of 6 seconds, and it has stopped and closed the
    stream and terminated PyAudio. *)
Theorem record_audio_sample_count (mic : microphone) :
  pyaudio_new mic = Ok tt ->
  open_stream mic = Ok tt ->
  (forall i, (i < num_chunks)%nat ->
     exists data,
       stream_read mic i = Ok data
       /\ Z.of_nat (List.length data) = 2 * CHUNK_SIZE) ->
  num_chunks = 93%nat
  /\ exists samples,
       record_audio mic
       = (MicState false false, [EvPrint listening_line], Ok samples)
       /\ Z.of_nat (List.length samples) = 95232
       /\ Z.of_nat (List.length samples)
          = SAMPLE_RATE * RECORD_SECONDS - 768.
Proof.
  intros Hn Ho Hr. split; [apply num_chunks_93|].
  destruct (read_frames_ok mic 2048 num_chunks 0 []) as (frames & E & L).
  { intros j Hj. destruct (Hr j) as (data & Hd & Hl); [lia|].
    exists data. split; [exact Hd|]. unfold CHUNK_SIZE in Hl. lia. }
  cbn [app] in E.
  destruct (frombuffer_int16_length (List.concat frames) (num_chunks * 1024))
    as (samples & Es & Ls); [rewrite L; lia|].
  exists (map to_float samples).
  unfold record_audio. rewrite Hn, Ho, E, Es. split; [reflexivity|].
  rewrite length_map, Ls, num_chunks_93.
  unfold SAMPLE_RATE, RECORD_SECONDS. lia.
Qed.

Lemma int16_of_range lo hi :
  0 <= lo <= 255 -> 0 <= hi <= 255 -> -32768 <= int16_of lo hi <= 32767.
Proof.
  intros Hlo Hhi. unfold int16_of. cbv zeta.
  destruct (Z.ltb_spec (lo + 256 * hi) 32768); lia.
Qed.

Lemma frombuffer_int16_range buffer : forall samples,
  Forall (fun b => 0 <= b <= 255) buffer ->
  frombuffer_int16 buffer = Ok samples ->
  Forall (fun s => -32768 <= s <= 32767) samples.
Proof.
  induction buffer as [|b|lo hi rest IH] using frombuffer_int16_pairs;
    intros samples Hb E.
  - cbn in E. inversion E. constructor.
  - discriminate.
  - cbn [frombuffer_int16] in E.
    destruct (frombuffer_int16 rest) as [l|e]; [|discriminate].
    inversion E; subst. inversion Hb as [|? ? Hlo Hb']; subst.
    inversion Hb' as [|? ? Hhi Hrest]; subst.
    constructor; [now apply int16_of_range | now apply IH].
Qed.

Lemma read_frames_bytes mic (B : Z -> Prop) : forall n i frames result,
  (forall j data, stream_read mic j = Ok data -> Forall B data) ->
  Forall B (List.concat frames) ->
  read_frames mic i n frames = Ok result ->
  Forall B (List.concat result).
Proof.
  induction n as [|n IH]; intros i frames result Hr Hf E.
  - cbn in E. now inversion E; subst.
  - cbn [read_frames] in E.
    destruct (stream_read mic i) as [data|e] eqn:Hd; [|discriminate].
    apply (IH (S i) (frames ++ [data]) result Hr); [|exact E].
    rewrite concat_app. apply Forall_app. split; [exact Hf|].
    cbn. rewrite app_nil_r. apply (Hr i data Hd).
Qed.

Lemma to_float_range s :
  -32768 <= s <= 32767 -> (-1 <= to_float s /\ to_float s < 1)%Q.
Proof.
  intros H. unfold to_float, Qdiv, Qmult, Qinv, Qle, Qlt, inject_Z.
  cbn. lia.
Qed.

(** X21: every sample that [record_audio] returns lies in the interval
    from -1.0 included to 1.0 excluded. *)
Theorem record_audio_samples_normalized (mic : microphone) samples :
  (forall i data,
     stream_read mic i = Ok data -> Forall (fun b => 0 <= b <= 255) data) ->
  snd (record_audio mic) = Ok samples ->
  forall x, In x samples -> (-1 <= x /\ x < 1)%Q.
Proof.
  intros Hb E x Hin. unfold record_audio in E.
  destruct (pyaudio_new mic); [|discriminate].
  destruct (open_stream mic); [|discriminate].
  destruct (read_frames mic 0 num_chunks []) as [frames|e] eqn:Ef;
    [|discriminate].
  destruct (frombuffer_int16 (List.concat frames)) as [l|e] eqn:El;
    [|discriminate].
  cbn [snd] in E. inversion E; subst. clear E.
  apply in_map_iff in Hin as (s & <- & Hs).
  apply to_float_range.
  assert (R : Forall (fun s => -32768 <= s <= 32767) l).
  { apply (frombuffer_int16_range (List.concat frames)); [|exact El].
    apply (read_frames_bytes mic _ num_chunks 0 [] frames Hb); auto. }
  rewrite Forall_forall in R. auto.
Qed.

(** X22: when a read of the stream raises, the exception leaves
    [record_audio] as it is, and the stream is neither stopped nor closed
    and PyAudio is not terminated: these calls come after the loop and
    nothing runs them on the way out. *)
Theorem record_audio_read_failure (mic : microphone) k e :
  pyaudio_new mic = Ok tt ->
  open_stream mic = Ok tt ->
  (k < num_chunks)%nat ->
  (forall j, (j < k)%nat -> exists data, stream_read mic j = Ok data) ->
  stream_read mic k = Raise e ->
  record_audio mic
  = (MicState true true, [EvPrint listening_line], Raise e).
Proof.
  intros Hn Ho Hk Hok Hr. unfold record_audio. rewrite Hn, Ho.
  rewrite (read_frames_raise mic e k num_chunks 0 []); auto.
  - lia.
  - intros j Hj. apply Hok. lia.
Qed.

(** X20 on a device that gives 100 full chunks. *)
Lemma record_audio_sample_count_witness :
  num_chunks = 93%nat
  /\ exists samples,
       record_audio (mic_failing_after 100)
       = (MicState false false, [EvPrint listening_line], Ok samples)
       /\ Z.of_nat (List.length samples) = 95232
       /\ Z.of_nat (List.length samples)
          = SAMPLE_RATE * RECORD_SECONDS - 768.
Proof.
  apply (record_audio_sample_count (mic_failing_after 100));
    [reflexivity | reflexivity |].
  intros i Hi. rewrite num_chunks_93 in Hi. exists (repeat 0 2048).
  unfold mic_failing_after. cbn [stream_read].
  destruct (Nat.ltb_spec i 100); [|lia].
  split; [reflexivity|]. rewrite repeat_length. reflexivity.
Defined.

(** X22 on a device that fails at the sixth read. *)
Lemma record_audio_read_failure_witness :
  record_audio (mic_failing_after 5)
  = (MicState true true, [EvPrint listening_line], Raise OSError).
Proof.
  apply (record_audio_read_failure (mic_failing_after 5) 5 OSError);
    [reflexivity | reflexivity | | | reflexivity].
  - rewrite num_chunks_93. lia.
  - intros j Hj. exists (repeat 0 2048).
    unfold mic_failing_after. cbn [stream_read].
    destruct (Nat.ltb_spec j 5); [reflexivity|lia].
Defined.

(** X21 on a device whose samples are all the lowest one, bytes 00 80:
    the bound -1.0 is reached. *)
Lemma record_audio_samples_normalized_witness :
  (-1 <= to_float (-32768) /\ to_float (-32768) < 1)%Q.
Proof.
  apply (record_audio_samples_normalized (mic_constant 0 128)
           (map to_float (repeat (-32768) 93))).
  - intros i data H. inversion H. subst. repeat constructor; lia.
  - vm_compute. reflexivity.
  - cbn [repeat map In]. left. reflexivity.
Defined.
